(** * xsf: Mathieu function entry points and the golden-table test harness

    A shallow embedding of [include/xsf/mathieu.h] and of the test cases
    under [tests/], with the properties of the dispatch logic that the
    specification states.

    - Floating-point scalars (the template parameter [T]) are the IEEE 754
      values of [SpecFloat], for an arbitrary format [(prec, emax)].
    - The routines of [specfun/specfun.h] ([cva2], [mtu0], [mtu12]) are not
      part of this header: they are parameters of the development.
    - [set_error] writes to an explicit log that every entry point threads.
    - The mutual recursion of the reflection branches is run on fuel, and
      is shown to need two units of it at most. *)

From Stdlib Require Import ZArith Bool List String Lia.
From Stdlib Require Import Floats.SpecFloat.
Import ListNotations.

Local Open Scope Z_scope.

(** ** Scalars *)

(** The template parameter [T]: [float] is [(24, 128)], [double] is
    [(53, 1024)]. *)
Class float_format := { prec : Z; emax : Z }.

Definition binary32 : float_format := {| prec := 24; emax := 128 |}.
Definition binary64 : float_format := {| prec := 53; emax := 1024 |}.

Abbreviation T := spec_float (only parsing).

Module Fp.

Section Ops.
Context {fmt : float_format}.

(** [std::numeric_limits<T>::quiet_NaN()] *)
Definition quiet_NaN : T := S754_nan.

(** The literal [0] (and [0.0]) converted to [T]. *)
Definition zero : T := S754_zero false.

(** Conversion of an [int] to [T] (exact for the small constants the
    header uses; rounded to nearest otherwise). *)
Definition of_int (z : Z) : T := binary_normalize prec emax z 0 false.

Definition ltb (x y : T) : bool := SFltb x y.
Definition leb (x y : T) : bool := SFleb x y.
(** [x != y]: true as soon as one side is NaN. *)
Definition neb (x y : T) : bool := negb (SFeqb x y).
Definition opp (x : T) : T := SFopp x.
Definition sub (x y : T) : T := SFsub prec emax x y.
Definition mul (x y : T) : T := SFmul prec emax x y.

(** [floor] of [<cmath>]: zeros, infinities and NaN are returned as they
    are, and so is a finite value that is already integral. *)
Definition floor (x : T) : T :=
  match x with
  | S754_finite s m e =>
      if 0 <=? e then x
      else
        let k := Z.shiftr (Zpos m) (- e) in
        if Z.shiftl k (- e) =? Zpos m then x
        else if s then of_int (- (k + 1))
        else if k =? 0 then S754_zero false
        else of_int k
  | _ => x
  end.

Definition INT_MIN : Z := - 2 ^ 31.
Definition INT_MAX : Z := 2 ^ 31 - 1.

(** The value of a finite scalar, truncated toward zero. *)
Definition trunc (x : T) : option Z :=
  match x with
  | S754_zero _ => Some 0
  | S754_finite s m e =>
      let k := if 0 <=? e then Z.shiftl (Zpos m) e
               else Z.shiftr (Zpos m) (- e) in
      Some (if s then - k else k)
  | _ => None
  end.

(** Does the truncated value fit an [int]? *)
Definition fits_int (x : T) : bool :=
  match trunc x with
  | Some z => (INT_MIN <=? z) && (z <=? INT_MAX)
  | None => false
  end.

(** The cast [(int)x].  It truncates toward zero.  When the truncated
    value does not fit an [int] (or [x] is infinite or NaN) the language
    leaves the conversion undefined; [unrepresentable x] stands for
    whatever [int] the platform then produces, and nothing is assumed
    about it. *)
Definition to_int (unrepresentable : T -> Z) (x : T) : Z :=
  match trunc x with
  | Some z =>
      if (INT_MIN <=? z) && (z <=? INT_MAX) then z else unrepresentable x
  | None => unrepresentable x
  end.
End Ops.

End Fp.

(** ** The error channel *)

(** Modelled from the spec: [error.h] is not among the sources.  The error
    kinds are the classifications the header passes to [set_error]: domain
    error, resource (memory) error, and generic/other failure. *)
Inductive sf_error_t : Type :=
  | SF_ERROR_DOMAIN
  | SF_ERROR_MEMORY
  | SF_ERROR_OTHER.

(** An error record: the function name and the error kind (the optional
    message is always [NULL] in this header). *)
Definition error_record : Type := string * sf_error_t.

(** The side channel: the records signalled so far, oldest first. *)
Definition channel : Type := list error_record.

(** Computations that may signal errors; [None] is a run that exhausted its
    fuel. *)
Definition M (A : Type) : Type := channel -> option (A * channel).

Definition ret {A : Type} (a : A) : M A := fun s => Some (a, s).

Definition bind {A B : Type} (c : M A) (k : A -> M B) : M B :=
  fun s => match c s with
           | Some (a, s') => k a s'
           | None => None
           end.

Definition out_of_fuel {A : Type} : M A := fun _ => None.

(** Modelled from the spec: [set_error] (declared in [error.h]) records the
    function name and the error kind on the side channel. *)
Definition set_error (func_name : string) (code : sf_error_t) : M unit :=
  fun s => Some (tt, s ++ [(func_name, code)]).

Declare Scope xsf_scope.
Delimit Scope xsf_scope with xsf.
Notation "x <- c ;; k" := (bind c (fun x => k))
  (at level 61, c at next level, right associativity) : xsf_scope.
Notation "' p <- c ;; k" := (bind c (fun x => let p := x in k))
  (at level 61, p pattern, c at next level, right associativity) : xsf_scope.
Notation "c ;; k" := (bind c (fun _ => k))
  (at level 61, right associativity) : xsf_scope.

(** ** The routines of specfun *)

(** Modelled from the spec: the status an internal routine returns; the
    header tells [OK] and [NoMemory] apart from every other status. *)
Inductive Status : Type :=
  | OK
  | NoMemory
  | Other.

Definition Status_eqb (a b : Status) : bool :=
  match a, b with
  | OK, OK | NoMemory, NoMemory | Other, Other => true
  | _, _ => false
  end.

(** The environment of the header: the three routines it calls, as functions
    of their arguments (output pointers become results), and the result of
    an out-of-range [(int)] cast. *)
Class specfun {fmt : float_format} := {
  (** [T cva2(int kd, int m, T q)] *)
  cva2 : Z -> Z -> T -> T;
  (** [Status mtu0(int kf, int m, T q, T x, T *csf, T *csd)] *)
  mtu0 : Z -> Z -> T -> T -> Status * (T * T);
  (** [Status mtu12(int kf, int kc, int m, T q, T x,
                    T *f1r, T *d1r, T *f2r, T *d2r)] *)
  mtu12 : Z -> Z -> Z -> T -> T -> Status * ((T * T) * (T * T));
  unrepresentable : T -> Z
}.

(** ** mathieu.h *)

Module Mathieu.

Import Fp.
Local Open Scope xsf_scope.

Section Header.
Context {fmt : float_format} {sf : specfun}.

(** [(int)m] *)
Definition int_cast (m : T) : Z := to_int unrepresentable m.

(** [status == Status::NoMemory ? SF_ERROR_MEMORY : SF_ERROR_OTHER] *)
Definition sf_error_of (status : Status) : sf_error_t :=
  if Status_eqb status NoMemory then SF_ERROR_MEMORY else SF_ERROR_OTHER.

(** Characteristic values. *)
Fixpoint cem_cva (fuel : nat) (m q : T) {struct fuel} : M T :=
  match fuel with
  | O => out_of_fuel
  | S fuel =>
      if ltb m zero || neb m (floor m) then
        set_error "mathieu_a"%string SF_ERROR_DOMAIN ;;
        ret quiet_NaN
      else
        let int_m := int_cast m in
        if ltb q zero then
          if Z.rem int_m 2 =? 0 then cem_cva fuel m (opp q)
          else sem_cva fuel m (opp q)
        else
          let kd := if negb (Z.rem int_m 2 =? 0) then 2 else 1 in
          ret (cva2 kd int_m q)
  end
with sem_cva (fuel : nat) (m q : T) {struct fuel} : M T :=
  match fuel with
  | O => out_of_fuel
  | S fuel =>
      if leb m zero || neb m (floor m) then
        set_error "mathieu_b"%string SF_ERROR_DOMAIN ;;
        ret quiet_NaN
      else
        let int_m := int_cast m in
        if ltb q zero then
          if Z.rem int_m 2 =? 0 then sem_cva fuel m (opp q)
          else cem_cva fuel m (opp q)
        else
          let kd := if negb (Z.rem int_m 2 =? 0) then 3 else 4 in
          ret (cva2 kd int_m q)
  end.

(** The tail shared by the six function evaluators: the outputs the
    routine wrote when it returned [OK], two NaNs and one error if not. *)
Definition check_status (name : string) (status : Status) (out : T * T)
  : M (T * T) :=
  if negb (Status_eqb status OK) then
    set_error name (sf_error_of status) ;;
    ret (quiet_NaN, quiet_NaN)
  else ret out.

(** Angular functions; the result is the pair [(csf, csd)]. *)
Fixpoint cem (fuel : nat) (m q x : T) {struct fuel} : M (T * T) :=
  match fuel with
  | O => out_of_fuel
  | S fuel =>
      let kf := 1 in
      if ltb m zero || neb m (floor m) then
        set_error "mathieu_cem"%string SF_ERROR_DOMAIN ;;
        ret (quiet_NaN, quiet_NaN)
      else
        let int_m := int_cast m in
        if ltb q zero then
          if Z.rem int_m 2 =? 0 then
            let sgn := if Z.rem (Z.quot int_m 2) 2 =? 0 then 1 else -1 in
            ' (f, d) <- cem fuel m (opp q) (sub (of_int 90) x) ;;
            ret (mul (of_int sgn) f, mul (of_int (- sgn)) d)
          else
            let sgn := if Z.rem (Z.quot int_m 2) 2 =? 0 then 1 else -1 in
            ' (f, d) <- sem fuel m (opp q) (sub (of_int 90) x) ;;
            ret (mul (of_int sgn) f, mul (of_int (- sgn)) d)
        else
          let '(status, out) := mtu0 kf int_m q x in
          check_status "mathieu_cem"%string status out
  end
with sem (fuel : nat) (m q x : T) {struct fuel} : M (T * T) :=
  match fuel with
  | O => out_of_fuel
  | S fuel =>
      let kf := 2 in
      if ltb m zero || neb m (floor m) then
        set_error "mathieu_sem"%string SF_ERROR_DOMAIN ;;
        ret (quiet_NaN, quiet_NaN)
      else
        let int_m := int_cast m in
        if int_m =? 0 then ret (zero, zero)
        else if ltb q zero then
          if Z.rem int_m 2 =? 0 then
            let sgn := if Z.rem (Z.quot int_m 2) 2 =? 0 then -1 else 1 in
            ' (f, d) <- sem fuel m (opp q) (sub (of_int 90) x) ;;
            ret (mul (of_int sgn) f, mul (of_int (- sgn)) d)
          else
            let sgn := if Z.rem (Z.quot int_m 2) 2 =? 0 then 1 else -1 in
            ' (f, d) <- cem fuel m (opp q) (sub (of_int 90) x) ;;
            ret (mul (of_int sgn) f, mul (of_int (- sgn)) d)
        else
          let '(status, out) := mtu0 kf int_m q x in
          check_status "mathieu_sem"%string status out
  end.

(** Modified (radial) functions; the result is the pair of output
    parameters, the other pair [mtu12] writes stays local. *)
Definition mcm1 (m q x : T) : M (T * T) :=
  let kf := 1 in let kc := 1 in
  if ltb m zero || neb m (floor m) || ltb q zero then
    set_error "mathieu_modcem1"%string SF_ERROR_DOMAIN ;;
    ret (quiet_NaN, quiet_NaN)
  else
    let int_m := int_cast m in
    let '(status, (r1, r2)) := mtu12 kf kc int_m q x in
    check_status "mathieu_modcem1"%string status r1.

Definition msm1 (m q x : T) : M (T * T) :=
  let kf := 2 in let kc := 1 in
  if ltb m (of_int 1) || neb m (floor m) || ltb q zero then
    set_error "mathieu_modsem1"%string SF_ERROR_DOMAIN ;;
    ret (quiet_NaN, quiet_NaN)
  else
    let int_m := int_cast m in
    let '(status, (r1, r2)) := mtu12 kf kc int_m q x in
    check_status "mathieu_modsem1"%string status r1.

Definition mcm2 (m q x : T) : M (T * T) :=
  let kf := 1 in let kc := 2 in
  if ltb m zero || neb m (floor m) || ltb q zero then
    set_error "mathieu_modcem2"%string SF_ERROR_DOMAIN ;;
    ret (quiet_NaN, quiet_NaN)
  else
    let int_m := int_cast m in
    let '(status, (r1, r2)) := mtu12 kf kc int_m q x in
    check_status "mathieu_modcem2"%string status r2.

Definition msm2 (m q x : T) : M (T * T) :=
  let kf := 2 in let kc := 2 in
  if ltb m (of_int 1) || neb m (floor m) || ltb q zero then
    set_error "mathieu_modsem2"%string SF_ERROR_DOMAIN ;;
    ret (quiet_NaN, quiet_NaN)
  else
    let int_m := int_cast m in
    let '(status, (r1, r2)) := mtu12 kf kc int_m q x in
    check_status "mathieu_modsem2"%string status r2.
End Header.

End Mathieu.

(** ** The evaluation surface

    The eight entry points of the header, gathered by family so that a
    property of all of them is one statement. *)

Module Surface.

Import Fp Mathieu.

(** The two kinds of Mathieu functions: even ([ce], entry points [cem_cva]
    and [cem]) and odd ([se], entry points [sem_cva] and [sem]). *)
Inductive kind : Type := even_kind | odd_kind.

Definition complementary (k : kind) : kind :=
  match k with even_kind => odd_kind | odd_kind => even_kind end.

(** The evaluators of function values, each with a pair of outputs. *)
Inductive evaluator : Type := Cem | Sem | Mcm1 | Msm1 | Mcm2 | Msm2.

Definition angular_evaluator (k : kind) : evaluator :=
  match k with even_kind => Cem | odd_kind => Sem end.

Section Surface.
Context {fmt : float_format} {sf : specfun}.

Definition cva (k : kind) : nat -> T -> T -> M T :=
  match k with even_kind => cem_cva | odd_kind => sem_cva end.

Definition angular (k : kind) : nat -> T -> T -> T -> M (T * T) :=
  match k with even_kind => cem | odd_kind => sem end.

Definition eval (e : evaluator) (fuel : nat) : T -> T -> T -> M (T * T) :=
  match e with
  | Cem => cem fuel
  | Sem => sem fuel
  | Mcm1 => mcm1
  | Msm1 => msm1
  | Mcm2 => mcm2
  | Msm2 => msm2
  end.

(** The name under which an evaluator signals. *)
Definition cva_name (k : kind) : string :=
  match k with
  | even_kind => "mathieu_a"
  | odd_kind => "mathieu_b"
  end.

Definition eval_name (e : evaluator) : string :=
  match e with
  | Cem => "mathieu_cem"
  | Sem => "mathieu_sem"
  | Mcm1 => "mathieu_modcem1"
  | Msm1 => "mathieu_modsem1"
  | Mcm2 => "mathieu_modcem2"
  | Msm2 => "mathieu_modsem2"
  end.

(** [m == floor(m)] *)
Definition integral (m : T) : bool := negb (neb m (floor m)).

(** A valid order of a characteristic value: a non-negative integer for
    the even kind, a positive integer for the odd kind. *)
Definition valid_order (k : kind) (m : T) : bool :=
  match k with
  | even_kind => negb (ltb m zero) && integral m
  | odd_kind => negb (leb m zero) && integral m
  end.

(** The inputs on which an angular evaluator takes its reflection branch:
    an order that passes the domain check (and, for [sem], is not cast to
    [0]) and a negative parameter. *)
Definition reflects (k : kind) (m q : T) : bool :=
  negb (ltb m zero) && integral m && ltb q zero &&
  match k with
  | even_kind => true
  | odd_kind => negb (int_cast m =? 0)
  end.

(** The sign factor [sgn] of the reflection (DLMF 28.2.34), by the order
    [n = int_m]: [ce_n] takes [(-1)^(n/2)] whatever the parity of [n], and
    [se_n] takes [(-1)^(n/2 - 1)] for an even [n] and [(-1)^((n-1)/2)] for
    an odd one. *)
Definition reflection_sign (k : kind) (n : Z) : Z :=
  let half_even := Z.even (Z.quot n 2) in
  match k with
  | even_kind => if half_even then 1 else -1
  | odd_kind =>
      if Z.even n then (if half_even then -1 else 1)
      else (if half_even then 1 else -1)
  end.

(** The inputs on which an evaluator reaches its call of [mtu0] or
    [mtu12]. *)
Definition calls_routine (e : evaluator) (m q : T) : bool :=
  match e with
  | Cem => negb (ltb m zero) && integral m && negb (ltb q zero)
  | Sem => negb (ltb m zero) && integral m && negb (ltb q zero)
           && negb (int_cast m =? 0)
  | Mcm1 | Mcm2 =>
      negb (ltb m zero) && integral m && negb (ltb q zero)
  | Msm1 | Msm2 =>
      negb (ltb m (of_int 1)) && integral m && negb (ltb q zero)
  end.

(** The status that call returns. *)
Definition routine_status (e : evaluator) (m q x : T) : Status :=
  match e with
  | Cem => fst (mtu0 1 (int_cast m) q x)
  | Sem => fst (mtu0 2 (int_cast m) q x)
  | Mcm1 => fst (mtu12 1 1 (int_cast m) q x)
  | Msm1 => fst (mtu12 2 1 (int_cast m) q x)
  | Mcm2 => fst (mtu12 1 2 (int_cast m) q x)
  | Msm2 => fst (mtu12 2 2 (int_cast m) q x)
  end.

(** The classification of a failing status: the memory kind for
    [NoMemory], the generic kind for any other. *)
Definition failure_kind (status : Status) : sf_error_t :=
  match status with
  | NoMemory => SF_ERROR_MEMORY
  | _ => SF_ERROR_OTHER
  end.

(** A computation settles when, from whatever channel it starts, it returns
    the same value and appends the same records, and these are either no
    record at all, or exactly one record next to a value that is the
    not-a-number sentinel. *)
Definition settles {A : Type} (sentinel : A -> Prop) (c : M A) : Prop :=
  exists (v : A) (errs : channel),
    (forall s, c s = Some (v, s ++ errs)) /\
    (errs = [] \/
     (sentinel v /\ exists name code, errs = [(name, code)])).

Definition is_NaN (v : T) : Prop := v = quiet_NaN.
Definition both_NaN (out : T * T) : Prop := out = (quiet_NaN, quiet_NaN).
End Surface.

End Surface.

(** ** The golden-table test cases *)

Module Harness.

Import Fp.

Section Cases.
Context {fmt : float_format}.

(** The input tuple and the output of the function under test. *)
Variables In Out : Type.

(** The function under test, e.g. [xsf::chdtr] or [xsf::hyp2f1]. *)
Variable f : In -> Out.

(** [xsf::extended_relative_error] of [fp_error_metrics.h] and
    [adjust_tolerance] of [testing_utils.h]: neither file is among the
    sources, both are parameters. *)
Variable extended_relative_error : Out -> Out -> T.
Variable adjust_tolerance : T -> T.

(** One row of the three aligned tables:
    [auto [input, output, tol] = GENERATE(xsf_test_cases<...>(...))] with
    [auto [desired, fallback] = output]. *)
Record reference_case : Type := {
  input : In;
  desired : Out;
  fallback : bool;
  tol : T
}.

(** The body of a test case of [scipy_special_tests] (chdtr, erfi, berp,
    erfcinv, ...); the result is whether [REQUIRE] holds. *)
Definition scipy_special_test (c : reference_case) : bool :=
  let out := f (input c) in
  let error := extended_relative_error out (desired c) in
  let tol := adjust_tolerance (tol c) in
  leb error tol.

(** The body of the test case of [test_hyp2f1.cpp]. *)
Definition hyp2f1_test (c : reference_case) : bool :=
  let out := f (input c) in
  let error := extended_relative_error out (desired c) in
  ltb error (mul (of_int 2) (tol c)).

End Cases.

Arguments input {In Out} _.
Arguments desired {In Out} _.
Arguments fallback {In Out} _.
Arguments tol {In Out} _.

End Harness.

(** ** Concrete environments

    Stand-ins for the routines of specfun, used only to run the entry points
    on concrete inputs. *)

Module Sample.

Import Fp.

(** Some binary64 scalars. *)
Definition d (z : Z) : T := @of_int binary64 z.
Definition half : T := S754_finite false 4503599627370496 (-53).
Definition pinf : T := S754_infinity false.

(** Every routine succeeds. *)
Definition routines_ok : @specfun binary64 := {|
  cva2 := fun kd m q => d (100 * kd + m);
  mtu0 := fun kf m q x => (OK, (d (10 * kf + m), x));
  mtu12 := fun kf kc m q x =>
    (OK, ((d (10 * kf + kc), x), (d (20 * kf + kc), q)));
  unrepresentable := fun _ => INT_MIN
|}.

(** The function routines run out of memory. *)
Definition routines_no_memory : @specfun binary64 := {|
  cva2 := fun kd m q => d (100 * kd + m);
  mtu0 := fun kf m q x => (NoMemory, (zero, zero));
  mtu12 := fun kf kc m q x => (NoMemory, ((zero, zero), (zero, zero)));
  unrepresentable := fun _ => INT_MIN
|}.

(** A table of three rows for a test of the identity on binary64, with the
    absolute difference standing in for the error metric and a fourfold
    widening for [adjust_tolerance]. *)
Definition metric (out desired : T) : T :=
  SFabs (@sub binary64 out desired).

Definition widen (tol : T) : T := @mul binary64 (d 4) tol.


End Sample.

(** ** Dispatch tables

    What the evaluators of [mathieu.h] decide on their arguments, written
    as tables: the argument check, the family [kd] handed to [cva2], and
    the outputs taken from the routine. *)

Module Dispatch.

Import Fp Mathieu Surface.

Section Dispatch.
Context {fmt : float_format} {sf : specfun}.

(** The argument check that opens each function evaluator. *)
Definition domain_guard (e : evaluator) (m q : T) : bool :=
  match e with
  | Cem | Sem => ltb m zero || neb m (floor m)
  | Mcm1 | Mcm2 => ltb m zero || neb m (floor m) || ltb q zero
  | Msm1 | Msm2 => ltb m (of_int 1) || neb m (floor m) || ltb q zero
  end.

(** The family [kd] that reaches [cva2], by the function asked for, the
    parity of [int_m], and whether the parameter was negative (so that the
    call went through the reflection). *)
Definition cva_kd (k : kind) (odd_order negative_q : bool) : Z :=
  match k with
  | even_kind => if odd_order then (if negative_q then 3 else 2) else 1
  | odd_kind => if odd_order then (if negative_q then 2 else 3) else 4
  end.

(** The outputs an evaluator takes from its routine: both outputs of
    [mtu0], the first pair [(f1r, d1r)] of [mtu12] for [mcm1] and [msm1],
    the second pair [(f2r, d2r)] for [mcm2] and [msm2]. *)
Definition routine_outputs (e : evaluator) (m q x : T) : T * T :=
  match e with
  | Cem => snd (mtu0 1 (int_cast m) q x)
  | Sem => snd (mtu0 2 (int_cast m) q x)
  | Mcm1 => fst (snd (mtu12 1 1 (int_cast m) q x))
  | Msm1 => fst (snd (mtu12 2 1 (int_cast m) q x))
  | Mcm2 => snd (snd (mtu12 1 2 (int_cast m) q x))
  | Msm2 => snd (snd (mtu12 2 2 (int_cast m) q x))
  end.

(** Is a record a domain error? *)
Definition is_domain (r : error_record) : bool :=
  match snd r with
  | SF_ERROR_DOMAIN => true
  | _ => false
  end.
End Dispatch.

End Dispatch.

(** ** The test case with two outputs *)

Module PairedHarness.

Import Fp.

(** How a test case ends: every [REQUIRE] held, or the [REQUIRE] of the
    given rank (from [0]) did not, which ends the case there. *)
Inductive outcome : Type :=
  | passed
  | failed_at (assertion : nat).

Section Paired.
Context {fmt : float_format}.

Variables In Out : Type.

(** The function under test ([xsf::prolate_radial2_nocv]); its two output
    parameters are the two components of the result. *)
Variable f : In -> Out * Out.

Variable extended_relative_error : Out -> Out -> T.
Variable adjust_tolerance : T -> T.

(** One row: [auto [desired0, desired1, fallback] = output] and
    [auto [tol0, tol1] = tol]. *)
Record paired_case : Type := {
  input : In;
  desired0 : Out;
  desired1 : Out;
  fallback : bool;
  tol0 : T;
  tol1 : T
}.

(** The body of the test case of [test_prolate_radial2_nocv.cpp]. *)
Definition prolate_radial2_nocv_test (c : paired_case) : outcome :=
  let '(out0, out1) := f (input c) in
  let error0 := extended_relative_error out0 (desired0 c) in
  let tol0 := adjust_tolerance (tol0 c) in
  if negb (leb error0 tol0) then failed_at 0
  else
    let error1 := extended_relative_error out1 (desired1 c) in
    let tol1 := adjust_tolerance (tol1 c) in
    if negb (leb error1 tol1) then failed_at 1
    else passed.
End Paired.

Arguments input {In Out} _.
Arguments desired0 {In Out} _.
Arguments desired1 {In Out} _.
Arguments fallback {In Out} _.
Arguments tol0 {In Out} _.
Arguments tol1 {In Out} _.

End PairedHarness.

(** ** Outcomes

    What a function evaluator does on an input, read off its branches: the
    routine call it reaches, the error it has to report, the outputs it
    returns when there is none. *)

Module Outcome.

Import Fp Mathieu Surface Dispatch.

Section Outcome.
Context {fmt : float_format} {sf : specfun}.

(** The call of [mtu0] or [mtu12] an evaluator reaches, if any: the
    evaluator that makes it (the reflected one on the reflection branch),
    and the parameter and the argument it passes.  None is reached when the
    argument check fails, nor by [sem] on an order cast to [0]. *)
Definition reached_call (e : evaluator) (m q x : T)
  : option (evaluator * (T * T)) :=
  if domain_guard e m q then None
  else
    match e with
    | Cem | Sem =>
        let k := match e with Sem => odd_kind | _ => even_kind end in
        if match e with Sem => int_cast m =? 0 | _ => false end then None
        else if ltb q zero then
          Some (angular_evaluator
                  (if Z.even (int_cast m) then k else complementary k),
                (opp q, sub (of_int 90) x))
        else Some (e, (q, x))
    | _ => Some (e, (q, x))
    end.


(** The error paths of a function evaluator: a failed argument check, and
    a routine call that returns a status other than [OK].  The result is
    the record that has to be signalled. *)
Definition error_path (e : evaluator) (m q x : T) : option error_record :=
  if domain_guard e m q then Some (eval_name e, SF_ERROR_DOMAIN)
  else
    match reached_call e m q x with
    | Some (e', (q', x')) =>
        match routine_status e' m q' x' with
        | OK => None
        | status => Some (eval_name e', failure_kind status)
        end
    | None => None
    end.

(** The one error path of a characteristic-value function: an order that
    is not valid ([cva2] returns no status). *)
Definition cva_error_path (k : kind) (m : T) : option error_record :=
  if valid_order k m then None else Some (cva_name k, SF_ERROR_DOMAIN).

(** The outputs of a run off the error paths: zeros where no routine is
    reached, the outputs of the routine otherwise, with the signs of the
    reflection when the parameter is negative. *)
Definition outputs (e : evaluator) (m q x : T) : T * T :=
  match reached_call e m q x with
  | None => (zero, zero)
  | Some (e', (q', x')) =>
      let '(f, d) := routine_outputs e' m q' x' in
      match e with
      | Cem | Sem =>
          let k := match e with Sem => odd_kind | _ => even_kind end in
          let sgn := reflection_sign k (int_cast m) in
          if ltb q zero then (mul (of_int sgn) f, mul (of_int (- sgn)) d)
          else (f, d)
      | _ => (f, d)
      end
  end.

End Outcome.

End Outcome.

(** ** The test cases, one by one *)

Module Tests.

Import Fp.

Section Tests.
Context {fmt : float_format}.

(** [std::complex<T>]: the real and the imaginary part. *)
Definition complex : Type := T * T.

(** The functions under test ([xsf/stats.h], [xsf/erf.h], [xsf/hyp2f1.h]
    are not among the sources). *)
Variable chdtr : T * T -> T.
Variable erfi_d : T -> T.
Variable erfi_D : complex -> complex.
Variable hyp2f1 : T * T * T * complex -> complex.

(** [xsf::extended_relative_error] on real and on complex values; either
    way the error is a real number. *)
Variable extended_relative_error : T -> T -> T.
Variable extended_relative_error_c : complex -> complex -> T.

(** [adjust_tolerance]: it is given the published tolerance and nothing
    else. *)
Variable adjust_tolerance : T -> T.




(** [test_hyp2f1.cpp], complex-valued. *)
Definition hyp2f1_test
  : Harness.reference_case (T * T * T * complex) complex -> bool :=
  Harness.hyp2f1_test (T * T * T * complex) complex hyp2f1
    extended_relative_error_c.
End Tests.

End Tests.

(** ** Concrete process states and complex rows *)

Module SampleStates.

Import Fp Sample.






End SampleStates.

(** * Properties *)

Import Fp Mathieu Surface.
Local Open Scope xsf_scope.

(** ** Facts on scalars *)

Section ScalarFacts.
Context {fmt : float_format}.

(** A negative parameter is negated into one that is not negative. *)
Lemma ltb_opp_zero (q : T) :
  ltb q zero = true -> ltb (opp q) zero = false.
Proof.
  destruct q as [s | s | | s m e]; try destruct s; cbn; congruence.
Qed.

(** [0 < -q] says as much as [q < 0]. *)
Lemma ltb_zero_opp (q : T) : ltb zero (opp q) = ltb q zero.
Proof. destruct q as [s | s | | s m e]; try destruct s; reflexivity. Qed.

(** [x < 0] is never true of a NaN, so a NaN is never reflected. *)
Lemma ltb_nan_zero : ltb quiet_NaN zero = false.
Proof. reflexivity. Qed.

(** A product with a NaN factor is the NaN. *)
Lemma mul_NaN_r (x : T) : mul x quiet_NaN = quiet_NaN.
Proof. destruct x; reflexivity. Qed.

(** [x < y] entails [x <= y]. *)
Lemma ltb_leb (x y : T) : ltb x y = true -> leb x y = true.
Proof.
  unfold ltb, leb, SFltb, SFleb.
  destruct (SFcompare x y) as [[ | | ] | ]; congruence.
Qed.

(** [n % 2 == 0] is the parity of [n], for negative [n] too. *)
Lemma rem2_even (n : Z) : (Z.rem n 2 =? 0) = Z.even n.
Proof.
  destruct (Z.even n) eqn:E.
  - apply Z.eqb_eq. apply Z.even_spec in E. destruct E as [k ->].
    rewrite Z.mul_comm. apply Z.rem_mul. discriminate.
  - apply Z.eqb_neq. intros R.
    assert (Z.even n = true); [ | congruence ].
    apply Z.even_spec. exists (Z.quot n 2).
    rewrite (Z.quot_rem' n 2) at 1. lia.
Qed.
End ScalarFacts.

(** The cast agrees with the truncated value whenever that fits an [int]. *)
Lemma to_int_fits (u : T -> Z) (x : T) :
  fits_int x = true -> trunc x = Some (to_int u x).
Proof.
  unfold fits_int, to_int. destruct (trunc x) as [z | ]; [ | discriminate ].
  intros ->. reflexivity.
Qed.

(** ** Facts on the entry points *)

Section EntryPoints.
Context {fmt : float_format} {sf : specfun}.

(** The first call of each recursive entry point, spelled out. *)
Lemma cem_cva_unfold (fuel : nat) (m q : T) :
  cem_cva (S fuel) m q =
  if ltb m zero || neb m (floor m) then
    set_error "mathieu_a"%string SF_ERROR_DOMAIN ;; ret quiet_NaN
  else if ltb q zero then
    if Z.rem (int_cast m) 2 =? 0 then cem_cva fuel m (opp q)
    else sem_cva fuel m (opp q)
  else ret (cva2 (if negb (Z.rem (int_cast m) 2 =? 0) then 2 else 1)
                 (int_cast m) q).
Proof. reflexivity. Qed.

Lemma sem_cva_unfold (fuel : nat) (m q : T) :
  sem_cva (S fuel) m q =
  if leb m zero || neb m (floor m) then
    set_error "mathieu_b"%string SF_ERROR_DOMAIN ;; ret quiet_NaN
  else if ltb q zero then
    if Z.rem (int_cast m) 2 =? 0 then sem_cva fuel m (opp q)
    else cem_cva fuel m (opp q)
  else ret (cva2 (if negb (Z.rem (int_cast m) 2 =? 0) then 3 else 4)
                 (int_cast m) q).
Proof. reflexivity. Qed.

(** With a parameter that is not negative no call is nested: one unit of
    fuel is as good as any. *)
Lemma cem_cva_direct (fuel : nat) (m q : T) :
  ltb q zero = false -> cem_cva (S fuel) m q = cem_cva 1 m q.
Proof.
  intros Hq. rewrite !cem_cva_unfold, Hq. reflexivity.
Qed.

Lemma sem_cva_direct (fuel : nat) (m q : T) :
  ltb q zero = false -> sem_cva (S fuel) m q = sem_cva 1 m q.
Proof.
  intros Hq. rewrite !sem_cva_unfold, Hq. reflexivity.
Qed.

(** Two units of fuel are as good as any. *)
Lemma cem_cva_fuel (n : nat) (m q : T) :
  cem_cva (S (S n)) m q = cem_cva 2 m q.
Proof.
  rewrite (cem_cva_unfold (S n)), (cem_cva_unfold 1).
  destruct (ltb m zero || neb m (floor m)); [ reflexivity | ].
  destruct (ltb q zero) eqn:Hq; [ | reflexivity ].
  apply ltb_opp_zero in Hq.
  rewrite (cem_cva_direct n), (sem_cva_direct n) by exact Hq. reflexivity.
Qed.

Lemma sem_cva_fuel (n : nat) (m q : T) :
  sem_cva (S (S n)) m q = sem_cva 2 m q.
Proof.
  rewrite (sem_cva_unfold (S n)), (sem_cva_unfold 1).
  destruct (leb m zero || neb m (floor m)); [ reflexivity | ].
  destruct (ltb q zero) eqn:Hq; [ | reflexivity ].
  apply ltb_opp_zero in Hq.
  rewrite (cem_cva_direct n), (sem_cva_direct n) by exact Hq. reflexivity.
Qed.

Lemma cem_unfold (fuel : nat) (m q x : T) :
  cem (S fuel) m q x =
  if ltb m zero || neb m (floor m) then
    set_error "mathieu_cem"%string SF_ERROR_DOMAIN ;;
    ret (quiet_NaN, quiet_NaN)
  else if ltb q zero then
    ' (f, d) <- (if Z.rem (int_cast m) 2 =? 0 then cem fuel else sem fuel)
                  m (opp q) (sub (of_int 90) x) ;;
    let sgn := if Z.rem (Z.quot (int_cast m) 2) 2 =? 0 then 1 else -1 in
    ret (mul (of_int sgn) f, mul (of_int (- sgn)) d)
  else
    check_status "mathieu_cem"%string
      (fst (mtu0 1 (int_cast m) q x)) (snd (mtu0 1 (int_cast m) q x)).
Proof.
  cbn [cem]. destruct (ltb m zero || neb m (floor m)); [ reflexivity | ].
  destruct (ltb q zero).
  - destruct (Z.rem (int_cast m) 2 =? 0); reflexivity.
  - destruct (mtu0 1 (int_cast m) q x) as [status out]. reflexivity.
Qed.

Lemma sem_unfold (fuel : nat) (m q x : T) :
  sem (S fuel) m q x =
  if ltb m zero || neb m (floor m) then
    set_error "mathieu_sem"%string SF_ERROR_DOMAIN ;;
    ret (quiet_NaN, quiet_NaN)
  else if int_cast m =? 0 then ret (zero, zero)
  else if ltb q zero then
    ' (f, d) <- (if Z.rem (int_cast m) 2 =? 0 then sem fuel else cem fuel)
                  m (opp q) (sub (of_int 90) x) ;;
    let sgn := if Z.rem (int_cast m) 2 =? 0
               then (if Z.rem (Z.quot (int_cast m) 2) 2 =? 0 then -1 else 1)
               else (if Z.rem (Z.quot (int_cast m) 2) 2 =? 0 then 1 else -1)
    in
    ret (mul (of_int sgn) f, mul (of_int (- sgn)) d)
  else
    check_status "mathieu_sem"%string
      (fst (mtu0 2 (int_cast m) q x)) (snd (mtu0 2 (int_cast m) q x)).
Proof.
  cbn [sem]. destruct (ltb m zero || neb m (floor m)); [ reflexivity | ].
  destruct (int_cast m =? 0); [ reflexivity | ].
  destruct (ltb q zero).
  - destruct (Z.rem (int_cast m) 2 =? 0); reflexivity.
  - destruct (mtu0 2 (int_cast m) q x) as [status out]. reflexivity.
Qed.

Lemma cem_direct (fuel : nat) (m q x : T) :
  ltb q zero = false -> cem (S fuel) m q x = cem 1 m q x.
Proof. intros Hq. rewrite !cem_unfold, Hq. reflexivity. Qed.

Lemma sem_direct (fuel : nat) (m q x : T) :
  ltb q zero = false -> sem (S fuel) m q x = sem 1 m q x.
Proof. intros Hq. rewrite !sem_unfold, Hq. reflexivity. Qed.

Lemma cem_fuel (n : nat) (m q x : T) : cem (S (S n)) m q x = cem 2 m q x.
Proof.
  rewrite (cem_unfold (S n)), (cem_unfold 1).
  destruct (ltb m zero || neb m (floor m)); [ reflexivity | ].
  destruct (ltb q zero) eqn:Hq; [ | reflexivity ].
  apply ltb_opp_zero in Hq.
  destruct (Z.rem (int_cast m) 2 =? 0);
    [ rewrite (cem_direct n) by exact Hq
    | rewrite (sem_direct n) by exact Hq ]; reflexivity.
Qed.

Lemma sem_fuel (n : nat) (m q x : T) : sem (S (S n)) m q x = sem 2 m q x.
Proof.
  rewrite (sem_unfold (S n)), (sem_unfold 1).
  destruct (ltb m zero || neb m (floor m)); [ reflexivity | ].
  destruct (int_cast m =? 0); [ reflexivity | ].
  destruct (ltb q zero) eqn:Hq; [ | reflexivity ].
  apply ltb_opp_zero in Hq.
  destruct (Z.rem (int_cast m) 2 =? 0);
    [ rewrite (sem_direct n) by exact Hq
    | rewrite (cem_direct n) by exact Hq ]; reflexivity.
Qed.

(** *** Settling *)

Lemma settles_ret {A : Type} (P : A -> Prop) (v : A) : settles P (ret v).
Proof.
  exists v, []. split; [ | left; reflexivity ].
  intros s. unfold ret. rewrite app_nil_r. reflexivity.
Qed.

Lemma settles_error {A : Type} (P : A -> Prop) (name : string)
    (code : sf_error_t) (v : A) :
  P v -> settles P (set_error name code ;; ret v).
Proof.
  intros Hv. exists v, [(name, code)]. split.
  - intros s. reflexivity.
  - right. split; [ exact Hv | ]. exists name, code. reflexivity.
Qed.

Lemma settles_check_status (name : string) (status : Status) (out : T * T) :
  settles both_NaN (check_status name status out).
Proof.
  unfold check_status. destruct (negb (Status_eqb status OK)).
  - apply settles_error. reflexivity.
  - apply settles_ret.
Qed.

(** The reflection keeps a settled result settled: the two factors turn a
    pair of NaNs into a pair of NaNs and signal nothing. *)
Lemma settles_reflected (c : M (T * T)) (a b : T) :
  settles both_NaN c ->
  settles both_NaN (' (f, d) <- c ;; ret (mul a f, mul b d)).
Proof.
  intros ([f d] & errs & Hrun & Herrs).
  exists (mul a f, mul b d), errs. split.
  - intros s. unfold bind. rewrite Hrun. reflexivity.
  - destruct Herrs as [-> | (Hnan & name & code & ->)]; [ left; reflexivity | ].
    right. split; [ | exists name, code; reflexivity ].
    unfold both_NaN in *. injection Hnan as -> ->.
    rewrite !mul_NaN_r. reflexivity.
Qed.

Lemma cem_cva_direct_settles (m q : T) :
  ltb q zero = false -> settles is_NaN (cem_cva 1 m q).
Proof.
  intros Hq. rewrite cem_cva_unfold, Hq.
  destruct (ltb m zero || neb m (floor m)).
  - apply settles_error. reflexivity.
  - apply settles_ret.
Qed.

Lemma sem_cva_direct_settles (m q : T) :
  ltb q zero = false -> settles is_NaN (sem_cva 1 m q).
Proof.
  intros Hq. rewrite sem_cva_unfold, Hq.
  destruct (leb m zero || neb m (floor m)).
  - apply settles_error. reflexivity.
  - apply settles_ret.
Qed.

Lemma cem_direct_settles (m q x : T) :
  ltb q zero = false -> settles both_NaN (cem 1 m q x).
Proof.
  intros Hq. rewrite cem_unfold, Hq.
  destruct (ltb m zero || neb m (floor m)).
  - apply settles_error. reflexivity.
  - apply settles_check_status.
Qed.

Lemma sem_direct_settles (m q x : T) :
  ltb q zero = false -> settles both_NaN (sem 1 m q x).
Proof.
  intros Hq. rewrite sem_unfold, Hq.
  destruct (ltb m zero || neb m (floor m)).
  - apply settles_error. reflexivity.
  - destruct (int_cast m =? 0); [ apply settles_ret | ].
    apply settles_check_status.
Qed.

Lemma cva_settles (k : kind) (m q : T) : settles is_NaN (cva k 2 m q).
Proof.
  destruct k; cbn [cva].
  - rewrite cem_cva_unfold.
    destruct (ltb m zero || neb m (floor m));
      [ apply settles_error; reflexivity | ].
    destruct (ltb q zero) eqn:Hq; [ | apply settles_ret ].
    apply ltb_opp_zero in Hq. destruct (Z.rem (int_cast m) 2 =? 0).
    + apply cem_cva_direct_settles, Hq.
    + apply sem_cva_direct_settles, Hq.
  - rewrite sem_cva_unfold.
    destruct (leb m zero || neb m (floor m));
      [ apply settles_error; reflexivity | ].
    destruct (ltb q zero) eqn:Hq; [ | apply settles_ret ].
    apply ltb_opp_zero in Hq. destruct (Z.rem (int_cast m) 2 =? 0).
    + apply sem_cva_direct_settles, Hq.
    + apply cem_cva_direct_settles, Hq.
Qed.

Lemma radial_settles (e : evaluator) (fuel : nat) (m q x : T) :
  match e with Cem | Sem => False | _ => True end ->
  settles both_NaN (eval e fuel m q x).
Proof.
  destruct e; cbn [eval]; intros He; try contradiction;
    unfold mcm1, msm1, mcm2, msm2;
    match goal with
    | |- context [if ?c then _ else _] => destruct c
    end;
    try (apply settles_error; reflexivity);
    destruct (mtu12 _ _ _ _ _) as [status [r1 r2]];
    apply settles_check_status.
Qed.

Lemma eval_settles (e : evaluator) (m q x : T) :
  settles both_NaN (eval e 2 m q x).
Proof.
  destruct e; try (apply radial_settles; exact I); cbn [eval].
  - rewrite cem_unfold.
    destruct (ltb m zero || neb m (floor m));
      [ apply settles_error; reflexivity | ].
    destruct (ltb q zero) eqn:Hq; [ | apply settles_check_status ].
    apply ltb_opp_zero in Hq. apply settles_reflected.
    destruct (Z.rem (int_cast m) 2 =? 0).
    + apply cem_direct_settles, Hq.
    + apply sem_direct_settles, Hq.
  - rewrite sem_unfold.
    destruct (ltb m zero || neb m (floor m));
      [ apply settles_error; reflexivity | ].
    destruct (int_cast m =? 0); [ apply settles_ret | ].
    destruct (ltb q zero) eqn:Hq; [ | apply settles_check_status ].
    apply ltb_opp_zero in Hq. apply settles_reflected.
    destruct (Z.rem (int_cast m) 2 =? 0).
    + apply sem_direct_settles, Hq.
    + apply cem_direct_settles, Hq.
Qed.

Lemma cva_fuel (k : kind) (n : nat) (m q : T) :
  cva k (S (S n)) m q = cva k 2 m q.
Proof. destruct k; [ apply cem_cva_fuel | apply sem_cva_fuel ]. Qed.

Lemma eval_fuel (e : evaluator) (n : nat) (m q x : T) :
  eval e (S (S n)) m q x = eval e 2 m q x.
Proof.
  destruct e; cbn [eval]; try reflexivity; [ apply cem_fuel | apply sem_fuel ].
Qed.
End EntryPoints.

(** *** Signs *)

Section Signs.
Context {fmt : float_format}.

Lemma binary_round_aux_opp (s : bool) (m e : Z) (l : location) :
  binary_round_aux prec emax (negb s) m e l =
  SFopp (binary_round_aux prec emax s m e l).
Proof.
  unfold binary_round_aux.
  destruct (shr_fexp prec emax m e l) as [mrs' e'].
  destruct (shr_fexp prec emax _ e' loc_Exact) as [mrs'' e''].
  destruct (shr_m mrs''); [ reflexivity | | reflexivity ].
  destruct (e'' <=? emax - prec); reflexivity.
Qed.

Lemma binary_round_opp (s : bool) (m : positive) (e : Z) :
  binary_round prec emax (negb s) m e = SFopp (binary_round prec emax s m e).
Proof.
  unfold binary_round. destruct (shl_align m e _) as [mz ez].
  apply binary_round_aux_opp.
Qed.

(** Converting the opposite of a non-zero [int] gives the opposite. *)
Lemma of_int_opp (z : Z) : z <> 0 -> of_int (- z) = opp (of_int z).
Proof.
  destruct z as [ | p | p ]; [ congruence | | ]; intros _; cbn.
  - apply (binary_round_opp false).
  - apply (binary_round_opp true).
Qed.

(** Flipping the sign of a factor flips the sign of the product. *)
Lemma mul_opp_l (a b : T) : mul (opp a) b = opp (mul a b).
Proof.
  destruct a as [sa | sa | | sa ma ea], b as [sb | sb | | sb mb eb]; cbn;
    try reflexivity; try (destruct sa, sb; reflexivity).
  rewrite <- binary_round_aux_opp. destruct sa, sb; reflexivity.
Qed.

(** [-sgn * d] is the opposite of [sgn * d]. *)
Lemma mul_sign_opp (sgn : Z) (d : T) :
  sgn <> 0 -> mul (of_int (- sgn)) d = opp (mul (of_int sgn) d).
Proof. intros H. rewrite of_int_opp by exact H. apply mul_opp_l. Qed.
End Signs.

Lemma reflection_sign_nonzero (k : kind) (n : Z) : reflection_sign k n <> 0.
Proof.
  unfold reflection_sign.
  destruct k, (Z.even n), (Z.even (Z.quot n 2)); discriminate.
Qed.

(** ** The claims on mathieu.h *)

Section Claims.
Context {fmt : float_format} {sf : specfun}.

(** An order that is not valid is answered by a domain error and a NaN. *)
Lemma cva_domain_error (k : kind) (n : nat) (m q : T) (s : channel) :
  valid_order k m = false ->
  cva k (S n) m q s =
  Some (quiet_NaN, s ++ [(cva_name k, SF_ERROR_DOMAIN)]).
Proof.
  destruct k; cbn [cva valid_order cva_name]; unfold integral; intros Hv.
  - rewrite cem_cva_unfold.
    destruct (ltb m zero), (neb m (floor m)); try discriminate; reflexivity.
  - rewrite sem_cva_unfold.
    destruct (leb m zero), (neb m (floor m)); try discriminate; reflexivity.
Qed.

(** The cast is exact on every order whose value fits an [int]. *)
Lemma int_cast_fits (m : T) :
  fits_int m = true -> trunc m = Some (int_cast m).
Proof. apply to_int_fits. Qed.



(** A positive integral order that fits an [int] is cast to a positive
    [int]. *)
Lemma positive_order_cast (m : T) :
  valid_order odd_kind m = true -> fits_int m = true -> 0 < int_cast m.
Proof.
  intros Hv Hfit. pose proof (int_cast_fits m Hfit) as Hcast. clear Hfit.
  revert Hv Hcast. generalize (int_cast m) as z. intros z.
  unfold valid_order, integral, neb, leb, zero.
  destruct m as [sg | sg | | sg mant e];
    try (destruct sg; discriminate); try discriminate.
  destruct sg; [ discriminate | ].
  cbn [SFleb SFcompare negb andb trunc]. intros Hint [= <-].
  destruct (0 <=? e) eqn:He.
  - apply Z.leb_le in He. rewrite Z.shiftl_mul_pow2 by exact He.
    apply Z.mul_pos_pos; [ reflexivity | apply Z.pow_pos_nonneg; lia ].
  - assert (Hk : 0 <= Z.shiftr (Z.pos mant) (- e))
      by (apply Z.shiftr_nonneg; lia).
    destruct (Z.eq_dec (Z.shiftr (Z.pos mant) (- e)) 0) as [H0 | H0];
      [ | lia ].
    exfalso. revert Hint. cbn [floor]. rewrite He, H0, Z.shiftl_0_l.
    cbn. discriminate.
Qed.

(** Hence a valid order that fits an [int], with a negative parameter, is
    an input of the reflection branch. *)
Lemma reflects_valid_order (k : kind) (m q : T) :
  valid_order k m = true -> fits_int m = true -> ltb q zero = true ->
  reflects k m q = true.
Proof.
  intros Hv Hfit Hq. unfold reflects. rewrite Hq.
  destruct k; cbn [valid_order] in Hv.
  - rewrite Hv. reflexivity.
  - pose proof (positive_order_cast m Hv Hfit) as Hpos.
    apply andb_prop in Hv as [Hpos' ->].
    replace (int_cast m =? 0) with false by (symmetry; apply Z.eqb_neq; lia).
    replace (ltb m zero) with false; [ reflexivity | ].
    symmetry. revert Hpos'. unfold ltb, leb, SFltb, SFleb.
    destruct (SFcompare m zero) as [[ | | ] | ]; cbn; congruence.
Qed.

(** C2. When [cem] or [sem] takes its reflection branch (valid order,
    negative [q]), it evaluates the reflected function at [-q] and
    [90 - x], and with [(f, d)] the outputs of that call it sets the value
    to [sgn * f] and the derivative to [-sgn * d], which is the opposite of
    [sgn * d]: the extra sign inversion is on the derivative only. *)
Theorem reflection_flips_derivative
    (k : kind) (n : nat) (m q x : T) (s : channel) :
  reflects k m q = true ->
  let sgn := reflection_sign k (int_cast m) in
  let k' := if Z.even (int_cast m) then k else complementary k in
  exists (f d : T) (s' : channel),
    angular k' (S n) m (opp q) (sub (of_int 90) x) s = Some ((f, d), s') /\
    angular k (S (S n)) m q x s =
      Some ((mul (of_int sgn) f, mul (of_int (- sgn)) d), s') /\
    mul (of_int (- sgn)) d = opp (mul (of_int sgn) d).
Proof.
  intros Hr sgn k'.
  assert (Hq : ltb q zero = true).
  { unfold reflects in Hr. destruct (ltb q zero); [ reflexivity | ].
    rewrite andb_false_r in Hr. discriminate. }
  pose proof (ltb_opp_zero q Hq) as Hq'.
  assert (Hk' : settles both_NaN
                  (angular k' (S n) m (opp q) (sub (of_int 90) x))).
  { destruct k'; cbn [angular].
    - rewrite cem_direct by exact Hq'. apply cem_direct_settles, Hq'.
    - rewrite sem_direct by exact Hq'. apply sem_direct_settles, Hq'. }
  destruct Hk' as ([f d] & errs & Hrun & _).
  exists f, d, (s ++ errs). split; [ apply Hrun | ].
  split; [ | apply mul_sign_opp, reflection_sign_nonzero ].
  subst sgn k'. unfold reflects, integral in Hr. revert Hrun.
  destruct k; cbn [angular complementary reflection_sign]; intros Hrun.
  - rewrite (cem_unfold (S n) m q x).
    destruct (ltb m zero), (neb m (floor m)); try discriminate.
    cbn [orb]. rewrite Hq, !rem2_even. unfold bind.
    destruct (Z.even (int_cast m)); cbn [angular] in Hrun;
      rewrite Hrun; reflexivity.
  - rewrite (sem_unfold (S n) m q x).
    destruct (ltb m zero), (neb m (floor m)); try discriminate.
    cbn [orb]. rewrite Hq in *. cbn [negb andb] in Hr.
    destruct (int_cast m =? 0); [ discriminate | ].
    rewrite !rem2_even. unfold bind.
    destruct (Z.even (int_cast m)); cbn [angular] in Hrun;
      rewrite Hrun; reflexivity.
Qed.

(** C3, at the order [+infinity].  An infinite order is not an integer, yet
    it passes the domain check of both characteristic-value functions
    ([floor] returns it unchanged, so [m != floor(m)] is false): whatever
    the parameter, the call returns what [cva2] computes for the [int] the
    cast happens to produce, and signals nothing. *)
Theorem cva_infinite_order (k : kind) (n : nat) (q : T) (s : channel) :
  valid_order k (S754_infinity false) = true /\
  exists kd : Z,
    cva k (S (S n)) (S754_infinity false) q s =
    Some (cva2 kd (int_cast (S754_infinity false))
               (if ltb q zero then opp q else q), s).
Proof.
  split; [ destruct k; reflexivity | ].
  set (m := S754_infinity false).
  assert (Hc : forall j q', ltb q' zero = false -> exists kd,
             cem_cva (S j) m q' s = Some (cva2 kd (int_cast m) q', s)).
  { intros j q' Hq'. rewrite cem_cva_unfold, Hq'. cbn [ltb neb floor orb].
    eexists. reflexivity. }
  assert (Hs : forall j q', ltb q' zero = false -> exists kd,
             sem_cva (S j) m q' s = Some (cva2 kd (int_cast m) q', s)).
  { intros j q' Hq'. rewrite sem_cva_unfold, Hq'. cbn [ltb neb floor orb].
    eexists. reflexivity. }
  destruct (ltb q zero) eqn:Hq.
  - pose proof (ltb_opp_zero q Hq) as Hq'.
    destruct k; cbn [cva].
    + rewrite (cem_cva_unfold (S n) m q), Hq. cbn [ltb neb floor orb].
      change (if SFltb m zero || negb (SFeqb m m) then ?a else ?b) with b.
      destruct (Z.rem (int_cast m) 2 =? 0); [ apply Hc | apply Hs ]; exact Hq'.
    + rewrite (sem_cva_unfold (S n) m q), Hq. cbn [ltb neb floor orb].
      change (if leb m zero || negb (SFeqb m m) then ?a else ?b) with b.
      destruct (Z.rem (int_cast m) 2 =? 0); [ apply Hs | apply Hc ]; exact Hq'.
  - destruct k; [ apply Hc | apply Hs ]; exact Hq.
Qed.

(** C4. When the routine an evaluator calls ([mtu0] for [cem] and [sem],
    [mtu12] for the four radial evaluators) returns a status that is not
    [OK], the evaluator sets both outputs to NaN and signals exactly one
    error, of the memory kind for [NoMemory] and of the generic kind for
    any other status. *)
Theorem routine_failure
    (e : evaluator) (n : nat) (m q x : T) (s : channel) :
  calls_routine e m q = true ->
  routine_status e m q x <> OK ->
  eval e (S n) m q x s =
  Some ((quiet_NaN, quiet_NaN),
        s ++ [(eval_name e, failure_kind (routine_status e m q x))]).
Proof.
  assert (Hfail : forall name status out, status <> OK ->
            check_status name status out s =
            Some ((quiet_NaN, quiet_NaN), s ++ [(name, failure_kind status)])).
  { intros name [ | | ] out H; [ congruence | reflexivity | reflexivity ]. }
  intros Hc Hst. unfold calls_routine, integral in Hc.
  destruct e; cbn [eval eval_name routine_status] in *.
  - rewrite cem_unfold.
    destruct (ltb m zero), (neb m (floor m)), (ltb q zero);
      try discriminate.
    apply Hfail, Hst.
  - rewrite sem_unfold.
    destruct (ltb m zero), (neb m (floor m)), (ltb q zero),
      (int_cast m =? 0); try discriminate.
    apply Hfail, Hst.
  - unfold mcm1.
    destruct (ltb m zero), (neb m (floor m)), (ltb q zero);
      try discriminate. cbn [orb].
    destruct (mtu12 1 1 (int_cast m) q x) as [status [r1 r2]].
    apply Hfail, Hst.
  - unfold msm1.
    destruct (ltb m (of_int 1)), (neb m (floor m)), (ltb q zero);
      try discriminate. cbn [orb].
    destruct (mtu12 2 1 (int_cast m) q x) as [status [r1 r2]].
    apply Hfail, Hst.
  - unfold mcm2.
    destruct (ltb m zero), (neb m (floor m)), (ltb q zero);
      try discriminate. cbn [orb].
    destruct (mtu12 1 2 (int_cast m) q x) as [status [r1 r2]].
    apply Hfail, Hst.
  - unfold msm2.
    destruct (ltb m (of_int 1)), (neb m (floor m)), (ltb q zero);
      try discriminate. cbn [orb].
    destruct (mtu12 2 2 (int_cast m) q x) as [status [r1 r2]].
    apply Hfail, Hst.
Qed.

(** C8. The reflection recursion stops after one nested call.  The branch
    is taken on [q < 0] only, which says as much as [0 < -q], so that a
    parameter and its opposite are never both negative; the call that receives the
    parameter of a nested call returns on one unit of fuel, so it nests no
    further; hence two units are enough for every input of the four
    recursive entry points, and more fuel changes nothing. *)
Theorem reflection_recursion_terminates
    (k : kind) (n : nat) (m q x : T) (s : channel) :
  ltb zero (opp q) = ltb q zero /\
  ltb q zero && ltb (opp q) zero = false /\
  (forall k' x', exists r r',
      cva k' 1 m (if ltb q zero then opp q else q) s = Some r /\
      angular k' 1 m (if ltb q zero then opp q else q) x' s = Some r') /\
  (exists r, cva k 2 m q s = Some r) /\
  (exists r, angular k 2 m q x s = Some r) /\
  cva k (S (S n)) m q s = cva k 2 m q s /\
  angular k (S (S n)) m q x s = angular k 2 m q x s.
Proof.
  assert (Hq' : ltb (if ltb q zero then opp q else q) zero = false).
  { destruct (ltb q zero) eqn:Hq; [ apply ltb_opp_zero, Hq | exact Hq ]. }
  split; [ | split; [ | split; [ | split; [ | split; [ | split ] ] ] ] ].
  - apply ltb_zero_opp.
  - destruct (ltb q zero) eqn:Hq; [ | reflexivity ].
    rewrite (ltb_opp_zero q Hq). reflexivity.
  - intros k' x'.
    assert (H1 : settles is_NaN
                   (cva k' 1 m (if ltb q zero then opp q else q))).
    { destruct k'; [ apply cem_cva_direct_settles
                   | apply sem_cva_direct_settles ]; exact Hq'. }
    assert (H2 : settles both_NaN
                   (angular k' 1 m (if ltb q zero then opp q else q) x')).
    { destruct k'; [ apply cem_direct_settles
                   | apply sem_direct_settles ]; exact Hq'. }
    destruct H1 as (v & errs & Hv & _), H2 as (out & errs' & Hout & _).
    exists (v, s ++ errs), (out, s ++ errs'). split; [ apply Hv | apply Hout ].
  - destruct (cva_settles k m q) as (v & errs & Hrun & _).
    exists (v, s ++ errs). apply Hrun.
  - destruct (eval_settles (angular_evaluator k) m q x)
      as (out & errs & Hrun & _).
    exists (out, s ++ errs). destruct k; apply Hrun.
  - rewrite cva_fuel. reflexivity.
  - destruct k; cbn [angular]; [ rewrite cem_fuel | rewrite sem_fuel ];
      reflexivity.
Qed.

(** C9. With the order [0] (of either sign) [sem] sets both outputs to [0]
    and signals nothing, whatever [q] and [x], while [sem_cva] answers the
    same order with a domain error and a NaN. *)
Theorem sem_order_zero (sg : bool) (n : nat) (q x : T) (s : channel) :
  sem (S n) (S754_zero sg) q x s = Some ((zero, zero), s) /\
  sem_cva (S n) (S754_zero sg) q s =
  Some (quiet_NaN, s ++ [("mathieu_b"%string, SF_ERROR_DOMAIN)]).
Proof.
  split.
  - rewrite sem_unfold. destruct sg; reflexivity.
  - rewrite sem_cva_unfold. destruct sg; reflexivity.
Qed.

(** C10. A negative parameter is a domain violation for each of the four
    radial evaluators: both outputs are NaN, one domain error is signalled,
    and [mtu12] plays no part in the result (no reflection is applied). *)
Theorem radial_negative_parameter (m q x : T) (s : channel) :
  ltb q zero = true ->
  mcm1 m q x s =
    Some ((quiet_NaN, quiet_NaN),
          s ++ [("mathieu_modcem1"%string, SF_ERROR_DOMAIN)]) /\
  msm1 m q x s =
    Some ((quiet_NaN, quiet_NaN),
          s ++ [("mathieu_modsem1"%string, SF_ERROR_DOMAIN)]) /\
  mcm2 m q x s =
    Some ((quiet_NaN, quiet_NaN),
          s ++ [("mathieu_modcem2"%string, SF_ERROR_DOMAIN)]) /\
  msm2 m q x s =
    Some ((quiet_NaN, quiet_NaN),
          s ++ [("mathieu_modsem2"%string, SF_ERROR_DOMAIN)]).
Proof.
  intros Hq. unfold mcm1, msm1, mcm2, msm2.
  rewrite Hq, !orb_true_r. repeat split.
Qed.
End Claims.

(** ** The theorems at concrete inputs *)

Section Witnesses.
Import Sample.
#[local] Existing Instance binary64.

(** The orders [0 .. 300] of binary64: each passes the domain check of
    [cem_cva], each but [0] that of [sem_cva], and each is cast to
    itself. *)
Example small_orders :
  forallb
    (fun k : Z =>
       valid_order even_kind (d k) &&
       Bool.eqb (valid_order odd_kind (d k)) (0 <? k) &&
       (int_cast (sf := routines_ok) (d k) =? k))
    (map Z.of_nat (seq 0 301)) = true.
Proof. vm_compute. reflexivity. Qed.

(** Orders that are rejected: [1/2], [-1], [-infinity] and NaN. *)
Example rejected_orders :
  map (valid_order even_kind) [half; d (-1); S754_infinity true; quiet_NaN]
  = [false; false; false; false].
Proof. reflexivity. Qed.



(** [cem(2, -3, 30)] reflects through [cem(2, 3, 60)] with [sgn = -1]. *)
Lemma reflection_flips_derivative_witness :
  reflects (sf := routines_ok) even_kind (d 2) (d (-3)) = true /\
  exists (f dd : T) (s' : channel),
    cem (sf := routines_ok) 1 (d 2) (d 3) (d 60) [] = Some ((f, dd), s') /\
    cem (sf := routines_ok) 2 (d 2) (d (-3)) (d 30) [] =
      Some ((mul (d (-1)) f, mul (d 1) dd), s') /\
    mul (d 1) dd = opp (mul (d (-1)) dd).
Proof.
  split; [ reflexivity | ].
  exact (reflection_flips_derivative (sf := routines_ok) even_kind 0
           (d 2) (d (-3)) (d 30) [] eq_refl).
Defined.

(** [cem(2, 3, 30)] and [msm2(2, 3, 30)] when the routines run out of
    memory. *)
Lemma routine_failure_witness :
  (calls_routine (sf := routines_no_memory) Cem (d 2) (d 3) = true /\
   routine_status (sf := routines_no_memory) Cem (d 2) (d 3) (d 30) <> OK /\
   cem (sf := routines_no_memory) 1 (d 2) (d 3) (d 30) [] =
   Some ((quiet_NaN, quiet_NaN), [("mathieu_cem"%string, SF_ERROR_MEMORY)])) /\
  msm2 (sf := routines_no_memory) (d 2) (d 3) (d 30) [] =
  Some ((quiet_NaN, quiet_NaN), [("mathieu_modsem2"%string, SF_ERROR_MEMORY)]).
Proof.
  assert (H : NoMemory <> OK) by discriminate.
  split; [ split; [ reflexivity | split; [ exact H | ] ] | ].
  - exact (routine_failure (sf := routines_no_memory) Cem 0
             (d 2) (d 3) (d 30) [] eq_refl H).
  - exact (routine_failure (sf := routines_no_memory) Msm2 0
             (d 2) (d 3) (d 30) [] eq_refl H).
Defined.

(** The four radial evaluators at [(2, -3, 30)]. *)
Lemma radial_negative_parameter_witness :
  ltb (d (-3)) zero = true /\
  mcm1 (sf := routines_ok) (d 2) (d (-3)) (d 30) [] =
    Some ((quiet_NaN, quiet_NaN),
          [("mathieu_modcem1"%string, SF_ERROR_DOMAIN)]) /\
  msm1 (sf := routines_ok) (d 2) (d (-3)) (d 30) [] =
    Some ((quiet_NaN, quiet_NaN),
          [("mathieu_modsem1"%string, SF_ERROR_DOMAIN)]) /\
  mcm2 (sf := routines_ok) (d 2) (d (-3)) (d 30) [] =
    Some ((quiet_NaN, quiet_NaN),
          [("mathieu_modcem2"%string, SF_ERROR_DOMAIN)]) /\
  msm2 (sf := routines_ok) (d 2) (d (-3)) (d 30) [] =
    Some ((quiet_NaN, quiet_NaN),
          [("mathieu_modsem2"%string, SF_ERROR_DOMAIN)]).
Proof.
  split; [ reflexivity | ].
  exact (radial_negative_parameter (sf := routines_ok)
           (d 2) (d (-3)) (d 30) [] eq_refl).
Defined.
End Witnesses.

(** * Further properties of mathieu.h *)

Import Dispatch.

(** Halving a non-negative [int]. *)
Lemma quot2_double (i : Z) : 0 <= i -> Z.quot (2 * i) 2 = i.
Proof.
  intros H. rewrite Z.quot_div_nonneg by lia.
  rewrite Z.mul_comm. apply Z.div_mul. lia.
Qed.

Lemma quot2_double_succ (i : Z) : 0 <= i -> Z.quot (2 * i + 1) 2 = i.
Proof.
  intros H. rewrite Z.quot_div_nonneg by lia.
  symmetry. apply (Z.div_unique _ _ _ 1); lia.
Qed.

Lemma even_pred (i : Z) : Z.even (i - 1) = negb (Z.even i).
Proof. rewrite Z.even_sub. cbn. destruct (Z.even i); reflexivity. Qed.

Section OrderFacts.
Context {fmt : float_format} {sf : specfun}.

Lemma opp_involutive (q : T) : opp (opp q) = q.
Proof. destruct q as [s | s | | s m e]; cbn; rewrite ?negb_involutive; reflexivity. Qed.

(** A positive parameter is not negative, and its opposite is. *)
Lemma ltb_zero_pos (q : T) :
  ltb zero q = true -> ltb q zero = false /\ ltb (opp q) zero = true.
Proof.
  destruct q as [s | s | | s m e]; try destruct s; cbn; intros H;
    try discriminate; split; reflexivity.
Qed.

(** An order that is neither negative nor positive is a zero. *)
Lemma order_zero_cases (m : T) :
  ltb m zero = false -> leb m zero = true -> exists sg, m = S754_zero sg.
Proof.
  destruct m as [s | s | | s mm e]; try destruct s; cbn; intros H1 H2;
    try discriminate; eexists; reflexivity.
Qed.

Lemma leb_zero_ltb (m : T) : leb m zero = false -> ltb m zero = false.
Proof.
  unfold ltb, leb, SFltb, SFleb.
  destruct (SFcompare m zero) as [[ | | ] | ]; congruence.
Qed.

(** A positive integer is a non-negative integer. *)
Lemma valid_order_odd_even (m : T) :
  valid_order odd_kind m = true -> valid_order even_kind m = true.
Proof.
  unfold valid_order. intros H. apply andb_prop in H as [Hp ->].
  rewrite leb_zero_ltb; [ reflexivity | ].
  destruct (leb m zero); [ discriminate | reflexivity ].
Qed.

(** A non-negative integer that is cast to an odd [int] is positive. *)
Lemma valid_order_even_odd (m : T) :
  valid_order even_kind m = true -> Z.even (int_cast m) = false ->
  valid_order odd_kind m = true.
Proof.
  unfold valid_order. intros H Hodd. apply andb_prop in H as [Hn ->].
  destruct (leb m zero) eqn:Hl; [ | reflexivity ].
  destruct (order_zero_cases m) as [sg ->]; [ | exact Hl | discriminate ].
  destruct (ltb m zero); [ discriminate | reflexivity ].
Qed.

(** Validity is kept along the reflection. *)
Lemma valid_order_reflected (k : kind) (m : T) :
  valid_order k m = true ->
  valid_order (if Z.even (int_cast m) then k else complementary k) m = true.
Proof.
  intros Hv. destruct (Z.even (int_cast m)) eqn:He; [ exact Hv | ].
  destruct k; cbn [complementary].
  - apply valid_order_even_odd; assumption.
  - apply valid_order_odd_even; assumption.
Qed.

(** The call of [cva2] on a valid order and a parameter that is not
    negative. *)
Lemma cva_direct_value (k : kind) (j : nat) (m q : T) (s : channel) :
  valid_order k m = true -> ltb q zero = false ->
  cva k (S j) m q s =
  Some (cva2 (cva_kd k (Z.odd (int_cast m)) false) (int_cast m) q, s).
Proof.
  intros Hv Hq. rewrite <- Z.negb_even.
  destruct k; cbn [cva valid_order cva_kd] in *; unfold integral in Hv.
  - rewrite cem_cva_unfold, Hq, rem2_even.
    destruct (ltb m zero), (neb m (floor m)); try discriminate.
    destruct (Z.even (int_cast m)); reflexivity.
  - rewrite sem_cva_unfold, Hq, rem2_even.
    destruct (leb m zero), (neb m (floor m)); try discriminate.
    destruct (Z.even (int_cast m)); reflexivity.
Qed.

(** The first step of a call on a valid order and a negative parameter. *)
Lemma cva_reflected_step (k : kind) (j : nat) (m q : T) :
  valid_order k m = true -> ltb q zero = true ->
  cva k (S j) m q =
  cva (if Z.even (int_cast m) then k else complementary k) j m (opp q).
Proof.
  intros Hv Hq.
  destruct k; cbn [cva valid_order complementary] in *; unfold integral in Hv.
  - rewrite cem_cva_unfold, Hq, rem2_even.
    destruct (ltb m zero), (neb m (floor m)); try discriminate.
    destruct (Z.even (int_cast m)); reflexivity.
  - rewrite sem_cva_unfold, Hq, rem2_even.
    destruct (leb m zero), (neb m (floor m)); try discriminate.
    destruct (Z.even (int_cast m)); reflexivity.
Qed.

(** The family that reaches [cva2] through the reflection. *)
Lemma cva_kd_reflected (k : kind) (even_order : bool) :
  cva_kd (if even_order then k else complementary k) (negb even_order) false
  = cva_kd k (negb even_order) true.
Proof. destruct k, even_order; reflexivity. Qed.

Lemma cva_kd_reflected_back (k : kind) (even_order : bool) :
  cva_kd (if even_order then k else complementary k) (negb even_order) true
  = cva_kd k (negb even_order) false.
Proof. destruct k, even_order; reflexivity. Qed.
End OrderFacts.

Section FurtherClaims.
Context {fmt : float_format} {sf : specfun}.

(** A call on a valid order, whatever the parameter: the one call of
    [cva2] it comes down to. *)
Lemma cva_value (k : kind) (j : nat) (m q : T) (s : channel) :
  valid_order k m = true ->
  cva k (S (S j)) m q s =
  Some (cva2 (cva_kd k (Z.odd (int_cast m)) (ltb q zero)) (int_cast m)
             (if ltb q zero then opp q else q), s).
Proof.
  intros Hv. destruct (ltb q zero) eqn:Hq.
  - rewrite cva_reflected_step by assumption.
    rewrite cva_direct_value;
      [ | apply valid_order_reflected, Hv | apply ltb_opp_zero, Hq ].
    rewrite <- Z.negb_even, cva_kd_reflected. reflexivity.
  - apply cva_direct_value; assumption.
Qed.

(** X1. On a valid order a characteristic-value function never signals,
    whatever the parameter: it returns what [cva2] computes at the
    parameter made non-negative, for the family [kd] of the table
    [cva_kd] (1 and 2 for [cem_cva] on an even and an odd order, 4 and 3
    for [sem_cva], the two odd entries exchanged when the parameter is
    negative). *)
Theorem cva_closed_form (k : kind) (n : nat) (m q : T) (s : channel) :
  valid_order k m = true ->
  cva k (S (S n)) m q s =
  Some (cva2 (cva_kd k (Z.odd (int_cast m)) (ltb q zero)) (int_cast m)
             (if ltb q zero then opp q else q), s).
Proof. apply cva_value. Qed.

(** X2. The reflection identity holds in both directions: for a valid
    order and a parameter that is negative or positive, the value at [q] is
    the value at [-q] of the same function (even [int_m]) or of the
    complementary one (odd [int_m]). *)
Theorem cva_exchange_symmetry
    (k : kind) (n : nat) (m q : T) (s : channel) :
  valid_order k m = true ->
  ltb q zero || ltb zero q = true ->
  cva k (S (S n)) m q s =
  cva (if Z.even (int_cast m) then k else complementary k)
      (S (S n)) m (opp q) s.
Proof.
  intros Hv Hq.
  rewrite (cva_value k) by exact Hv.
  rewrite (cva_value _ n m (opp q))
    by (apply valid_order_reflected, Hv).
  rewrite <- !Z.negb_even.
  destruct (ltb q zero) eqn:Hneg.
  - rewrite (ltb_opp_zero q Hneg), cva_kd_reflected. reflexivity.
  - cbn [orb] in Hq. destruct (ltb_zero_pos q Hq) as [_ Hopp].
    rewrite Hopp, opp_involutive, cva_kd_reflected_back. reflexivity.
Qed.

(** *** Runs without a domain error *)

(** What the tail of an evaluator does, by the status of the routine. *)
Lemma check_status_run (name : string) (status : Status) (out : T * T)
    (s : channel) :
  check_status name status out s =
  match status with
  | OK => Some (out, s)
  | _ => Some ((quiet_NaN, quiet_NaN), s ++ [(name, failure_kind status)])
  end.
Proof. destruct status; reflexivity. Qed.

(** However the routine ends, the tail signals no domain error. *)
Lemma check_status_no_domain (name : string) (status : Status)
    (out : T * T) :
  exists (v : T * T) (errs : channel),
    (forall s, check_status name status out s = Some (v, s ++ errs)) /\
    existsb is_domain errs = false.
Proof.
  destruct status.
  - exists out, []. split; [ | reflexivity ].
    intros s. rewrite check_status_run, app_nil_r. reflexivity.
  - exists (quiet_NaN, quiet_NaN), [(name, SF_ERROR_MEMORY)].
    split; [ intros s; reflexivity | reflexivity ].
  - exists (quiet_NaN, quiet_NaN), [(name, SF_ERROR_OTHER)].
    split; [ intros s; reflexivity | reflexivity ].
Qed.

(** The direct branch of an angular evaluator, past its argument check. *)
Lemma angular_direct_no_domain (k : kind) (m q x : T) :
  ltb m zero || neb m (floor m) = false -> ltb q zero = false ->
  exists (v : T * T) (errs : channel),
    (forall s, angular k 1 m q x s = Some (v, s ++ errs)) /\
    existsb is_domain errs = false.
Proof.
  intros Hm Hq. destruct k; cbn [angular].
  - rewrite cem_unfold, Hm, Hq. apply check_status_no_domain.
  - rewrite sem_unfold, Hm, Hq. destruct (int_cast m =? 0).
    + exists (zero, zero), []. split; [ | reflexivity ].
      intros s. unfold ret. rewrite app_nil_r. reflexivity.
    + apply check_status_no_domain.
Qed.

(** The reflection branch of an angular evaluator, as one equation. *)
Lemma angular_reflection (k : kind) (n : nat) (m q x : T) :
  reflects k m q = true ->
  angular k (S (S n)) m q x =
  (' (f, d) <- angular (if Z.even (int_cast m) then k else complementary k)
                 1 m (opp q) (sub (of_int 90) x) ;;
   ret (mul (of_int (reflection_sign k (int_cast m))) f,
        mul (of_int (- reflection_sign k (int_cast m))) d)).
Proof.
  intros Hr. unfold reflects, integral in Hr.
  assert (Hq : ltb q zero = true).
  { destruct (ltb q zero); [ reflexivity | ].
    rewrite andb_false_r in Hr. discriminate. }
  pose proof (ltb_opp_zero q Hq) as Hq'. rewrite Hq in Hr.
  destruct k; cbn [angular complementary reflection_sign].
  - rewrite (cem_unfold (S n) m q x).
    destruct (ltb m zero), (neb m (floor m)); try discriminate.
    cbn [orb]. rewrite Hq, !rem2_even.
    destruct (Z.even (int_cast m)); cbn [angular];
      [ rewrite (cem_direct n) by exact Hq'
      | rewrite (sem_direct n) by exact Hq' ]; reflexivity.
  - rewrite (sem_unfold (S n) m q x).
    destruct (ltb m zero), (neb m (floor m)); try discriminate.
    cbn [orb negb andb] in *.
    destruct (int_cast m =? 0); [ discriminate | ].
    rewrite Hq, !rem2_even.
    destruct (Z.even (int_cast m)); cbn [angular];
      [ rewrite (sem_direct n) by exact Hq'
      | rewrite (cem_direct n) by exact Hq' ]; reflexivity.
Qed.

(** X3. A function evaluator signals a domain error exactly when its
    argument check fails, and then under its own name, with both outputs
    NaN and nothing else signalled; past the check, whatever the routine
    (or the reflected call) reports is never a domain error. *)
Theorem domain_error_iff_argument_check
    (e : evaluator) (n : nat) (m q x : T) (s : channel) :
  exists (out : T * T) (errs : channel),
    eval e (S (S n)) m q x s = Some (out, s ++ errs) /\
    existsb is_domain errs = domain_guard e m q /\
    (if domain_guard e m q
     then errs = [(eval_name e, SF_ERROR_DOMAIN)] /\
          out = (quiet_NaN, quiet_NaN)
     else True).
Proof.
  assert (Hang : forall k,
    exists out errs,
      angular k (S (S n)) m q x s = Some (out, s ++ errs) /\
      existsb is_domain errs = (ltb m zero || neb m (floor m)) /\
      (if ltb m zero || neb m (floor m)
       then errs = [(eval_name (angular_evaluator k), SF_ERROR_DOMAIN)] /\
            out = (quiet_NaN, quiet_NaN)
       else True)).
  { intros k. destruct (ltb m zero || neb m (floor m)) eqn:Hm.
    - exists (quiet_NaN, quiet_NaN),
        [(eval_name (angular_evaluator k), SF_ERROR_DOMAIN)].
      split; [ | split; [ reflexivity | split; reflexivity ] ].
      destruct k; cbn [angular];
        [ rewrite cem_unfold | rewrite sem_unfold ]; rewrite Hm; reflexivity.
    - destruct (ltb q zero) eqn:Hq.
      + destruct (reflects k m q) eqn:Hr.
        * rewrite angular_reflection by exact Hr.
          destruct (angular_direct_no_domain
                      (if Z.even (int_cast m) then k else complementary k)
                      m (opp q) (sub (of_int 90) x) Hm
                      (ltb_opp_zero q Hq)) as ([f d] & errs & Hrun & Hno).
          eexists _, errs. unfold bind. rewrite Hrun.
          split; [ reflexivity | split; [ exact Hno | exact I ] ].
        * (* only [sem] on an order cast to [0] *)
          unfold reflects, integral in Hr. rewrite Hq in Hr.
          apply orb_false_elim in Hm as [Hm1 Hm2].
          rewrite Hm1, Hm2 in Hr. destruct k; [ discriminate | ].
          cbn [negb andb] in Hr. apply negb_false_iff in Hr.
          exists (zero, zero), []. cbn [angular].
          rewrite sem_unfold, Hm1, Hm2, Hr. cbn [orb].
          unfold ret. rewrite app_nil_r.
          split; [ reflexivity | split; [ reflexivity | exact I ] ].
      + destruct (angular_direct_no_domain k m q x Hm Hq)
          as (out & errs & Hrun & Hno).
        exists out, errs.
        split; [ | split; [ exact Hno | exact I ] ].
        destruct k; cbn [angular];
          [ rewrite cem_direct by exact Hq
          | rewrite sem_direct by exact Hq ]; apply Hrun. }
  assert (Hrad : forall (name : string) (g : bool) (r : Status * (T * T)),
    exists out errs,
      (if g then set_error name SF_ERROR_DOMAIN ;; ret (quiet_NaN, quiet_NaN)
       else check_status name (fst r) (snd r)) s = Some (out, s ++ errs) /\
      existsb is_domain errs = g /\
      (if g then errs = [(name, SF_ERROR_DOMAIN)] /\
                 out = (quiet_NaN, quiet_NaN)
       else True)).
  { intros name [ | ] r.
    - eexists _, [_]. split; [ reflexivity | ].
      split; [ reflexivity | split; reflexivity ].
    - destruct (check_status_no_domain name (fst r) (snd r))
        as (out & errs & Hrun & Hno).
      exists out, errs. split; [ apply Hrun | split; [ exact Hno | exact I ] ]. }
  destruct e; cbn [eval eval_name domain_guard].
  - apply (Hang even_kind).
  - apply (Hang odd_kind).
  - unfold mcm1.
    destruct (mtu12 1 1 (int_cast m) q x) as [status [r1 r2]].
    apply (Hrad _ _ (status, r1)).
  - unfold msm1.
    destruct (mtu12 2 1 (int_cast m) q x) as [status [r1 r2]].
    apply (Hrad _ _ (status, r1)).
  - unfold mcm2.
    destruct (mtu12 1 2 (int_cast m) q x) as [status [r1 r2]].
    apply (Hrad _ _ (status, r2)).
  - unfold msm2.
    destruct (mtu12 2 2 (int_cast m) q x) as [status [r1 r2]].
    apply (Hrad _ _ (status, r2)).
Qed.

(** X4. When the routine an evaluator calls returns [OK], the evaluator
    hands its outputs over unchanged and signals nothing: both outputs of
    [mtu0] for [cem] and [sem], the first pair [(f1r, d1r)] of [mtu12] for
    [mcm1] and [msm1], the second pair [(f2r, d2r)] for [mcm2] and
    [msm2]. *)
Theorem routine_success
    (e : evaluator) (n : nat) (m q x : T) (s : channel) :
  calls_routine e m q = true ->
  routine_status e m q x = OK ->
  eval e (S n) m q x s = Some (routine_outputs e m q x, s).
Proof.
  intros Hc Hst. unfold calls_routine, integral in Hc.
  destruct e; cbn [eval routine_status routine_outputs] in *.
  - rewrite cem_unfold.
    destruct (ltb m zero), (neb m (floor m)), (ltb q zero);
      try discriminate.
    cbn [orb]. rewrite check_status_run, Hst. reflexivity.
  - rewrite sem_unfold.
    destruct (ltb m zero), (neb m (floor m)), (ltb q zero),
      (int_cast m =? 0); try discriminate.
    cbn [orb]. rewrite check_status_run, Hst. reflexivity.
  - unfold mcm1.
    destruct (ltb m zero), (neb m (floor m)), (ltb q zero);
      try discriminate. cbn [orb].
    destruct (mtu12 1 1 (int_cast m) q x) as [status [r1 r2]].
    cbn [fst snd] in *. rewrite check_status_run, Hst. reflexivity.
  - unfold msm1.
    destruct (ltb m (of_int 1)), (neb m (floor m)), (ltb q zero);
      try discriminate. cbn [orb].
    destruct (mtu12 2 1 (int_cast m) q x) as [status [r1 r2]].
    cbn [fst snd] in *. rewrite check_status_run, Hst. reflexivity.
  - unfold mcm2.
    destruct (ltb m zero), (neb m (floor m)), (ltb q zero);
      try discriminate. cbn [orb].
    destruct (mtu12 1 2 (int_cast m) q x) as [status [r1 r2]].
    cbn [fst snd] in *. rewrite check_status_run, Hst. reflexivity.
  - unfold msm2.
    destruct (ltb m (of_int 1)), (neb m (floor m)), (ltb q zero);
      try discriminate. cbn [orb].
    destruct (mtu12 2 2 (int_cast m) q x) as [status [r1 r2]].
    cbn [fst snd] in *. rewrite check_status_run, Hst. reflexivity.
Qed.

(** The direct branch of an angular evaluator, by the status of [mtu0]. *)
Lemma angular_direct_run (k : kind) (m q x : T) (s : channel) :
  calls_routine (angular_evaluator k) m q = true ->
  angular k 1 m q x s =
  match routine_status (angular_evaluator k) m q x with
  | OK => Some (routine_outputs (angular_evaluator k) m q x, s)
  | st => Some ((quiet_NaN, quiet_NaN),
                s ++ [(eval_name (angular_evaluator k), failure_kind st)])
  end.
Proof.
  intros Hc. unfold calls_routine, integral in Hc.
  destruct k;
    cbn [angular angular_evaluator routine_status routine_outputs eval_name]
      in *.
  - rewrite cem_unfold.
    destruct (ltb m zero), (neb m (floor m)), (ltb q zero);
      try discriminate.
    cbn [orb]. rewrite check_status_run.
    destruct (fst (mtu0 1 (int_cast m) q x)); reflexivity.
  - rewrite sem_unfold.
    destruct (ltb m zero), (neb m (floor m)), (ltb q zero),
      (int_cast m =? 0); try discriminate.
    cbn [orb]. rewrite check_status_run.
    destruct (fst (mtu0 2 (int_cast m) q x)); reflexivity.
Qed.

(** An input of the reflection branch makes the reflected evaluator reach
    its routine. *)
Lemma reflects_calls_routine (k : kind) (m q : T) :
  reflects k m q = true ->
  calls_routine
    (angular_evaluator (if Z.even (int_cast m) then k else complementary k))
    m (opp q) = true.
Proof.
  unfold reflects, calls_routine, integral. intros Hr.
  destruct (ltb q zero) eqn:Hq;
    [ | rewrite andb_false_r in Hr; discriminate ].
  rewrite (ltb_opp_zero q Hq).
  destruct (ltb m zero), (neb m (floor m)); try discriminate.
  cbn [negb andb] in *.
  destruct (Z.even (int_cast m)) eqn:He, k;
    cbn [complementary angular_evaluator]; try reflexivity; cbn [andb].
  - exact Hr.
  - destruct (Z.eqb_spec (int_cast m) 0) as [H0 | H0]; [ | reflexivity ].
    rewrite H0 in He. discriminate.
Qed.

(** X5. A failure met through the reflection is signalled under the name
    of the function that was reflected to: when [cem] (resp. [sem]) takes
    its reflection branch and [mtu0] fails in the reflected call, both
    outputs are NaN and the one error signalled carries the name of the
    same function for an even [int_m], of the complementary function for an
    odd one. *)
Theorem reflected_failure_attribution
    (k : kind) (n : nat) (m q x : T) (s : channel) :
  reflects k m q = true ->
  let e' := angular_evaluator
              (if Z.even (int_cast m) then k else complementary k) in
  let status := routine_status e' m (opp q) (sub (of_int 90) x) in
  status <> OK ->
  angular k (S (S n)) m q x s =
  Some ((quiet_NaN, quiet_NaN), s ++ [(eval_name e', failure_kind status)]).
Proof.
  intros Hr e' status Hst. rewrite angular_reflection by exact Hr.
  unfold bind. rewrite angular_direct_run by (apply reflects_calls_routine, Hr).
  fold e'. fold status.
  destruct status; [ congruence | | ]; cbn [ret];
    rewrite !mul_NaN_r; reflexivity.
Qed.

(** X6. The sign of the reflection is a power of [-1]: on its reflection
    branch, with an order cast to [int_m >= 0], [cem] multiplies the value
    by [(-1)^(int_m / 2)] and [sem] by [(-1)^((int_m - 1) / 2)] (integer
    divisions), the derivative by the opposite; with [int_m = 2n] or
    [2n + 1] for [cem], [2n + 1] or [2n + 2] for [sem], that is [(-1)^n],
    the factor of DLMF 28.2.34 to 28.2.37. *)
Theorem reflection_sign_is_power
    (k : kind) (n : nat) (m q x : T) (s : channel) :
  reflects k m q = true ->
  0 <= int_cast m ->
  let p := match k with
           | even_kind => Z.quot (int_cast m) 2
           | odd_kind => Z.quot (int_cast m - 1) 2
           end in
  let k' := if Z.even (int_cast m) then k else complementary k in
  exists (f d : T) (s' : channel),
    angular k' 1 m (opp q) (sub (of_int 90) x) s = Some ((f, d), s') /\
    angular k (S (S n)) m q x s =
    Some ((mul (of_int ((-1) ^ p)) f, mul (of_int (- (-1) ^ p)) d), s').
Proof.
  intros Hr Hpos p k'.
  assert (Hpow : forall j, 0 <= j ->
            (-1) ^ j = if Z.even j then 1 else -1).
  { intros j Hj. destruct (Z.even j) eqn:Hev.
    - apply Z.even_spec in Hev. destruct Hev as [i ->].
      rewrite Z.pow_mul_r by lia. change ((-1) ^ 2) with 1.
      apply Z.pow_1_l. lia.
    - rewrite <- Z.negb_odd in Hev. apply negb_false_iff in Hev.
      apply Z.odd_spec in Hev. destruct Hev as [i ->].
      rewrite Z.pow_add_r, Z.pow_mul_r by lia. change ((-1) ^ 2) with 1.
      rewrite Z.pow_1_l by lia. reflexivity. }
  assert (Hsgn : reflection_sign k (int_cast m) = (-1) ^ p).
  { assert (Hnz : k = odd_kind -> 1 <= int_cast m).
    { intros ->. unfold reflects in Hr.
      destruct (Z.eqb_spec (int_cast m) 0) as [H0 | H0]; [ | lia ].
      rewrite andb_false_r in Hr. discriminate. }
    subst p. unfold reflection_sign.
    destruct k.
    - rewrite Hpow by (apply Z.quot_pos; lia). reflexivity.
    - specialize (Hnz eq_refl).
      rewrite Hpow by (apply Z.quot_pos; lia).
      destruct (Z.even (int_cast m)) eqn:Hev.
      + apply Z.even_spec in Hev. destruct Hev as [i Hi]. rewrite Hi.
        replace (2 * i - 1) with (2 * (i - 1) + 1) by lia.
        rewrite quot2_double, quot2_double_succ by lia.
        rewrite even_pred. destruct (Z.even i); reflexivity.
      + rewrite <- Z.negb_odd in Hev. apply negb_false_iff in Hev.
        apply Z.odd_spec in Hev. destruct Hev as [i Hi]. rewrite Hi.
        replace (2 * i + 1 - 1) with (2 * i) by lia.
        rewrite quot2_double, quot2_double_succ by lia. reflexivity. }
  rewrite angular_reflection by exact Hr. fold k'. rewrite Hsgn.
  destruct (angular_direct_no_domain k' m (opp q) (sub (of_int 90) x))
    as ([f d] & errs & Hrun & _).
  { unfold reflects, integral in Hr.
    destruct (ltb m zero), (neb m (floor m)); try discriminate.
    reflexivity. }
  { apply ltb_opp_zero. unfold reflects in Hr.
    destruct (ltb q zero); [ reflexivity | ].
    rewrite andb_false_r in Hr. discriminate. }
  exists f, d, (s ++ errs). unfold bind. rewrite Hrun.
  split; reflexivity.
Qed.

(** X7. A NaN order is answered by a domain error and NaN outputs by every
    entry point, whatever the other arguments. *)
Theorem nan_order_rejected (n : nat) (q x : T) (s : channel) :
  (forall k : kind,
      cva k (S n) quiet_NaN q s =
      Some (quiet_NaN, s ++ [(cva_name k, SF_ERROR_DOMAIN)])) /\
  (forall e : evaluator,
      eval e (S n) quiet_NaN q x s =
      Some ((quiet_NaN, quiet_NaN), s ++ [(eval_name e, SF_ERROR_DOMAIN)])).
Proof.
  split.
  - intros [ | ]; reflexivity.
  - intros [ | | | | | ]; reflexivity.
Qed.

(** X8. The order [0] (of either sign) is a domain error for the odd radial
    evaluators [msm1] and [msm2], whatever [q] and [x], in a format where
    [1] is positive; the even ones [mcm1] and [mcm2] accept it, their check
    then bearing on the parameter alone. *)
Theorem radial_order_zero (sg : bool) (q x : T) (s : channel) :
  ltb zero (of_int 1) = true ->
  msm1 (S754_zero sg) q x s =
    Some ((quiet_NaN, quiet_NaN),
          s ++ [("mathieu_modsem1"%string, SF_ERROR_DOMAIN)]) /\
  msm2 (S754_zero sg) q x s =
    Some ((quiet_NaN, quiet_NaN),
          s ++ [("mathieu_modsem2"%string, SF_ERROR_DOMAIN)]) /\
  domain_guard Mcm1 (S754_zero sg) q = ltb q zero /\
  domain_guard Mcm2 (S754_zero sg) q = ltb q zero.
Proof.
  intros H1.
  assert (H : ltb (S754_zero sg) (of_int 1) = true).
  { revert H1. unfold ltb, zero, SFltb.
    destruct (of_int 1) as [s1 | s1 | | s1 m1 e1]; cbn; intros H;
      exact H. }
  unfold msm1, msm2. rewrite H. cbn [orb].
  repeat split; destruct sg; reflexivity.
Qed.
End FurtherClaims.

(** * Further properties of the test cases *)

Section HarnessFurther.
Context {fmt : float_format}.
Variables In Out : Type.
Variable f : In -> Out.
Variable g : In -> Out * Out.
Variable extended_relative_error : Out -> Out -> T.
Variable adjust_tolerance : T -> T.

Local Abbreviation scipy_special_test :=
  (Harness.scipy_special_test In Out f extended_relative_error
     adjust_tolerance).
Local Abbreviation hyp2f1_test :=
  (Harness.hyp2f1_test In Out f extended_relative_error).
Local Abbreviation prolate_radial2_nocv_test :=
  (PairedHarness.prolate_radial2_nocv_test In Out g extended_relative_error
     adjust_tolerance).

(** X9. A row whose error metric is NaN fails, in the scipy_special_tests
    and in the hyp2f1 test alike, whatever the tolerance: no comparison
    with a NaN holds. *)
Theorem nan_error_fails (c : Harness.reference_case In Out) :
  extended_relative_error (f (Harness.input c)) (Harness.desired c)
    = quiet_NaN ->
  scipy_special_test c = false /\ hyp2f1_test c = false.
Proof.
  intros H. unfold Harness.scipy_special_test, Harness.hyp2f1_test.
  rewrite H. split; reflexivity.
Qed.

(** X10. The [fallback] flag of a row is read and captured but never
    used: the outcome of a test is the same whatever flag the row
    carries, in the three kinds of test bodies. *)
Theorem fallback_flag_is_ignored
    (c : Harness.reference_case In Out)
    (pc : PairedHarness.paired_case In Out) (flag : bool) :
  scipy_special_test
    {| Harness.input := Harness.input c;
       Harness.desired := Harness.desired c;
       Harness.fallback := flag;
       Harness.tol := Harness.tol c |} = scipy_special_test c /\
  hyp2f1_test
    {| Harness.input := Harness.input c;
       Harness.desired := Harness.desired c;
       Harness.fallback := flag;
       Harness.tol := Harness.tol c |} = hyp2f1_test c /\
  prolate_radial2_nocv_test
    {| PairedHarness.input := PairedHarness.input pc;
       PairedHarness.desired0 := PairedHarness.desired0 pc;
       PairedHarness.desired1 := PairedHarness.desired1 pc;
       PairedHarness.fallback := flag;
       PairedHarness.tol0 := PairedHarness.tol0 pc;
       PairedHarness.tol1 := PairedHarness.tol1 pc |}
  = prolate_radial2_nocv_test pc.
Proof. repeat split. Qed.

(** X11. The test with two outputs passes exactly when each output is
    within its own adjusted tolerance; it stops at the first [REQUIRE]
    exactly when the first output is not, whatever the second output is,
    and at the second exactly when the first is and the second is not. *)
Theorem paired_test_outcome (pc : PairedHarness.paired_case In Out) :
  let error0 := extended_relative_error
                  (fst (g (PairedHarness.input pc)))
                  (PairedHarness.desired0 pc) in
  let error1 := extended_relative_error
                  (snd (g (PairedHarness.input pc)))
                  (PairedHarness.desired1 pc) in
  let within0 := leb error0 (adjust_tolerance (PairedHarness.tol0 pc)) in
  let within1 := leb error1 (adjust_tolerance (PairedHarness.tol1 pc)) in
  match prolate_radial2_nocv_test pc with
  | PairedHarness.passed => within0 = true /\ within1 = true
  | PairedHarness.failed_at 0 => within0 = false
  | PairedHarness.failed_at 1 => within0 = true /\ within1 = false
  | PairedHarness.failed_at _ => False
  end.
Proof.
  unfold PairedHarness.prolate_radial2_nocv_test.
  destruct (g (PairedHarness.input pc)) as [out0 out1]. cbn [fst snd].
  destruct (leb _ (adjust_tolerance (PairedHarness.tol0 pc)));
    cbn [negb]; [ | reflexivity ].
  destruct (leb _ (adjust_tolerance (PairedHarness.tol1 pc)));
    cbn [negb]; split; reflexivity.
Qed.
End HarnessFurther.

(** ** The further properties at concrete inputs *)

Section FurtherWitnesses.
Import Sample.
#[local] Existing Instance binary64.

(** [cem_cva(3, -3)] is [cva2(3, 3, 3)], and [sem_cva(2, 3)] is
    [cva2(4, 2, 3)]. *)
Lemma cva_closed_form_witness :
  valid_order even_kind (d 3) = true /\
  cem_cva (sf := routines_ok) 2 (d 3) (d (-3)) [] =
    Some (cva2 (specfun := routines_ok) 3 3 (d 3), []) /\
  sem_cva (sf := routines_ok) 2 (d 2) (d 3) [] =
    Some (cva2 (specfun := routines_ok) 4 2 (d 3), []).
Proof.
  split; [ reflexivity | split ].
  - exact (cva_closed_form (sf := routines_ok) even_kind 0 (d 3) (d (-3)) []
             eq_refl).
  - exact (cva_closed_form (sf := routines_ok) odd_kind 0 (d 2) (d 3) []
             eq_refl).
Defined.

(** [cem_cva(3, 3)] is [sem_cva(3, -3)]. *)
Lemma cva_exchange_symmetry_witness :
  valid_order even_kind (d 3) = true /\
  ltb (d 3) zero || ltb zero (d 3) = true /\
  cem_cva (sf := routines_ok) 2 (d 3) (d 3) [] =
  sem_cva (sf := routines_ok) 2 (d 3) (d (-3)) [].
Proof.
  split; [ reflexivity | split; [ reflexivity | ] ].
  exact (cva_exchange_symmetry (sf := routines_ok) even_kind 0 (d 3) (d 3) []
           eq_refl eq_refl).
Defined.

(** [mcm2(2, 3, 30)] returns the second pair of [mtu12(1, 2, 2, 3, 30)]. *)
Lemma routine_success_witness :
  calls_routine (sf := routines_ok) Mcm2 (d 2) (d 3) = true /\
  routine_status (sf := routines_ok) Mcm2 (d 2) (d 3) (d 30) = OK /\
  mcm2 (sf := routines_ok) (d 2) (d 3) (d 30) [] = Some ((d 22, d 3), []).
Proof.
  split; [ reflexivity | split; [ reflexivity | ] ].
  exact (routine_success (sf := routines_ok) Mcm2 0 (d 2) (d 3) (d 30) []
           eq_refl eq_refl).
Defined.

(** [cem(3, -3, 30)] out of memory: the error carries the name of [sem]. *)
Lemma reflected_failure_attribution_witness :
  reflects (sf := routines_no_memory) even_kind (d 3) (d (-3)) = true /\
  cem (sf := routines_no_memory) 2 (d 3) (d (-3)) (d 30) [] =
  Some ((quiet_NaN, quiet_NaN), [("mathieu_sem"%string, SF_ERROR_MEMORY)]).
Proof.
  split; [ reflexivity | ].
  refine (reflected_failure_attribution (sf := routines_no_memory)
            even_kind 0 (d 3) (d (-3)) (d 30) [] eq_refl _).
  discriminate.
Defined.

(** [sem(4, -3, 30)]: [(4 - 1) / 2 = 1], the sign is [-1]. *)
Lemma reflection_sign_is_power_witness :
  reflects (sf := routines_ok) odd_kind (d 4) (d (-3)) = true /\
  0 <= int_cast (sf := routines_ok) (d 4) /\
  exists (f dd : T) (s' : channel),
    sem (sf := routines_ok) 1 (d 4) (d 3) (d 60) [] = Some ((f, dd), s') /\
    sem (sf := routines_ok) 2 (d 4) (d (-3)) (d 30) [] =
    Some ((mul (d (-1)) f, mul (d 1) dd), s').
Proof.
  split; [ reflexivity | split; [ discriminate | ] ].
  refine (reflection_sign_is_power (sf := routines_ok) odd_kind 0
            (d 4) (d (-3)) (d 30) [] eq_refl _).
  discriminate.
Defined.

(** [msm1(0, 3, 30)] in binary64. *)
Lemma radial_order_zero_witness :
  ltb zero (d 1) = true /\
  msm1 (sf := routines_ok) (d 0) (d 3) (d 30) [] =
  Some ((quiet_NaN, quiet_NaN),
        [("mathieu_modsem1"%string, SF_ERROR_DOMAIN)]).
Proof.
  split; [ reflexivity | ].
  exact (proj1 (radial_order_zero (sf := routines_ok) false (d 3) (d 30) []
                  eq_refl)).
Defined.

(** A row whose expected value is NaN, under the sample metric. *)
Lemma nan_error_fails_witness :
  metric (d 1) quiet_NaN = quiet_NaN /\
  Harness.scipy_special_test T T (fun x => x) metric widen
    {| Harness.input := d 1; Harness.desired := quiet_NaN;
       Harness.fallback := false; Harness.tol := half |} = false /\
  Harness.hyp2f1_test T T (fun x => x) metric
    {| Harness.input := d 1; Harness.desired := quiet_NaN;
       Harness.fallback := false; Harness.tol := half |} = false.
Proof.
  split; [ reflexivity | ].
  exact (nan_error_fails T T (fun x => x) metric widen
           {| Harness.input := d 1; Harness.desired := quiet_NaN;
              Harness.fallback := false; Harness.tol := half |} eq_refl).
Defined.
End FurtherWitnesses.

(** * Error paths and hidden state *)

Import Outcome.

Section Runs.
Context {fmt : float_format} {sf : specfun}.

(** An angular evaluator, branch by branch. *)
Lemma angular_run (k : kind) (n : nat) (m q x : T) (s : channel) :
  angular k (S (S n)) m q x s =
  match error_path (angular_evaluator k) m q x with
  | Some r => Some ((quiet_NaN, quiet_NaN), s ++ [r])
  | None => Some (outputs (angular_evaluator k) m q x, s)
  end.
Proof.
  unfold error_path, outputs, reached_call.
  replace (domain_guard (angular_evaluator k) m q)
    with (ltb m zero || neb m (floor m)) by (destruct k; reflexivity).
  destruct (ltb m zero || neb m (floor m)) eqn:Hm.
  { destruct k; cbn [angular angular_evaluator eval_name];
      [ rewrite cem_unfold | rewrite sem_unfold ]; rewrite Hm; reflexivity. }
  apply orb_false_elim in Hm as [Hm1 Hm2].
  assert (Hzero : k = odd_kind -> (int_cast m =? 0) = true ->
            angular k (S (S n)) m q x s = Some ((zero, zero), s)).
  { intros -> H0. cbn [angular]. rewrite sem_unfold, Hm1, Hm2, H0.
    reflexivity. }
  destruct (ltb q zero) eqn:Hq.
  - destruct (reflects k m q) eqn:Hr.
    + pose proof (reflects_calls_routine k m q Hr) as Hcall.
      rewrite angular_reflection by exact Hr. unfold bind.
      rewrite angular_direct_run by exact Hcall.
      assert (Hnz : k = odd_kind -> (int_cast m =? 0) = false).
      { intros ->. unfold reflects in Hr.
        destruct (int_cast m =? 0); [ | reflexivity ].
        rewrite andb_false_r in Hr. discriminate. }
      destruct k; cbn [angular_evaluator complementary];
        try rewrite (Hnz eq_refl);
        match goal with
        | |- context [routine_status ?e ?a ?b ?c] =>
            destruct (routine_status e a b c)
        end;
        try (destruct (routine_outputs _ m (opp q) (sub (of_int 90) x))
               as [f d0]);
        cbn [ret]; rewrite ?mul_NaN_r; reflexivity.
    + unfold reflects, integral in Hr. rewrite Hq, Hm1, Hm2 in Hr.
      destruct k; [ discriminate | ].
      cbn [negb andb] in Hr. apply negb_false_iff in Hr.
      rewrite (Hzero eq_refl Hr). cbn [angular_evaluator]. rewrite Hr.
      reflexivity.
  - assert (Hd : angular k (S (S n)) m q x = angular k 1 m q x).
    { destruct k; cbn [angular];
        [ apply cem_direct | apply sem_direct ]; exact Hq. }
    destruct k; cbn [angular_evaluator].
    + rewrite Hd, (angular_direct_run even_kind)
        by (unfold calls_routine, integral; cbn [angular_evaluator];
            rewrite Hm1, Hm2, Hq; reflexivity).
      cbn [angular_evaluator].
      destruct (routine_status Cem m q x);
        try destruct (routine_outputs Cem m q x) as [f d0]; reflexivity.
    + destruct (int_cast m =? 0) eqn:H0.
      * apply (Hzero eq_refl eq_refl).
      * rewrite Hd, (angular_direct_run odd_kind)
          by (unfold calls_routine, integral; cbn [angular_evaluator];
              rewrite Hm1, Hm2, Hq, H0; reflexivity).
        cbn [angular_evaluator].
        destruct (routine_status Sem m q x);
          try destruct (routine_outputs Sem m q x) as [f d0]; reflexivity.
Qed.

(** Every function evaluator, branch by branch: on an error path both
    outputs are NaN and the error of that path is the one record signalled;
    off the error paths nothing is signalled. *)
Lemma eval_run (e : evaluator) (n : nat) (m q x : T) (s : channel) :
  eval e (S (S n)) m q x s =
  match error_path e m q x with
  | Some r => Some ((quiet_NaN, quiet_NaN), s ++ [r])
  | None => Some (outputs e m q x, s)
  end.
Proof.
  destruct e;
    try (apply (angular_run even_kind)); try (apply (angular_run odd_kind));
    unfold error_path, outputs, reached_call, routine_status,
      routine_outputs, eval, eval_name, domain_guard,
      mcm1, msm1, mcm2, msm2;
    cbv zeta;
    match goal with
    | |- context [if ?g then set_error _ _ ;; _ else _] => destruct g
    end;
    try reflexivity; cbv beta iota;
    match goal with
    | |- context [mtu12 ?kf ?kc ?im ?a ?b] =>
        destruct (mtu12 kf kc im a b) as [status [[f1 d1] [f2 d2]]]
    end;
    rewrite check_status_run; destruct status; reflexivity.
Qed.


(** C6. Every entry point returns on every input, and on every error path
    (an order or a parameter that fails the argument check, a routine that
    returns a status other than [OK], met directly or through the
    reflection) it returns the NaN sentinel, in every output, and reports
    the error of that path, and that one only, on the side channel; off
    the error paths it reports nothing. *)
Theorem error_paths_return_NaN_and_report
    (n : nat) (m q x : T) (s : channel) :
  (forall k : kind, exists v : T,
      cva k (S (S n)) m q s =
      match cva_error_path k m with
      | Some r => Some (quiet_NaN, s ++ [r])
      | None => Some (v, s)
      end) /\
  (forall e : evaluator, exists out : T * T,
      eval e (S (S n)) m q x s =
      match error_path e m q x with
      | Some r => Some ((quiet_NaN, quiet_NaN), s ++ [r])
      | None => Some (out, s)
      end).
Proof.
  split.
  - intros k. unfold cva_error_path. destruct (valid_order k m) eqn:Hv.
    + eexists. apply cva_value, Hv.
    + exists quiet_NaN. apply cva_domain_error, Hv.
  - intros e. exists (outputs e m q x). apply eval_run.
Qed.
End Runs.

(** ** Hidden state *)

Section HiddenState.
Context {fmt : float_format}.

End HiddenState.

(** ** The tolerance rules of the test cases *)

Section ToleranceRules.
Context {fmt : float_format}.


Variable chdtr : T * T -> T.
Variable erfi_d : T -> T.
Variable erfi_D : Tests.complex -> Tests.complex.
Variable hyp2f1 : T * T * T * Tests.complex -> Tests.complex.
Variable extended_relative_error : T -> T -> T.
Variable extended_relative_error_c : Tests.complex -> Tests.complex -> T.
Variable adjust_tolerance : T -> T.

End ToleranceRules.

(** ** These theorems at concrete inputs *)

Section StateWitnesses.
Import Sample SampleStates.
#[local] Existing Instance binary64.



End StateWitnesses.
